(** * Tile rearrangement: validator, splitter, joiner and orchestrator

    A shallow embedding of [qualifier/qualifier.py] and the properties its
    specification states about it.

    - Python integers are [Z]; [%] on integers is [Z.modulo] (floored, sign
      of the divisor) and raises on a zero divisor.
    - Python exceptions are values of [exn]; a computation that may raise
      has type [result A].
    - Python floats appear in the program as the quotients
      [image_size[i] / tile_size[i]] and what is computed from them.  They
      are modelled by [pyfloat], which tracks whole-number values with the
      rounding of an IEEE binary64 (53-bit significand, round half to even).
    - A PIL image is a record of its mode, its size and its pixel function.
    - The file system seen by [Image.open] and [Image.save] is a finite map
      from paths to images.  Of [save] only the run in which the library's
      writer accepts the path and the mode and stores the image as it is
      appears in the model; that the writer can refuse, truncate an
      existing file or re-encode the pixels is outside it. *)

From stdpp Require Import base gmap strings list.

Local Open Scope Z_scope.

(** ** Exceptions and the error monad *)

Inductive exn : Type :=
  | ZeroDivisionError
  | OverflowError
  | IndexError
  | ValueError (msg : string)
  | FileNotFoundError
  | NotModelled.

Inductive result (A : Type) : Type :=
  | Ok (a : A)
  | Err (e : exn).
Arguments Ok {A} a.
Arguments Err {A} e.

#[global] Instance result_ret : MRet result := fun A a => Ok a.
#[global] Instance result_bind : MBind result := fun A B f m =>
  match m with
  | Ok a => f a
  | Err e => Err e
  end.

(** ** Python floats holding whole numbers *)

(** [round53 n] is the integer nearest to [n] that a binary64 can hold:
    [n] itself up to 53 significant bits, beyond that the nearest multiple
    of the unit in the last place, ties to the even significand. *)
Definition round53 (n : Z) : Z :=
  let a := Z.abs n in
  let e := Z.log2 a - 52 in
  if e <=? 0 then n
  else
    let m := a / 2 ^ e in
    let r := a mod 2 ^ e in
    let h := 2 ^ (e - 1) in
    let m' := if r <? h then m
              else if h <? r then m + 1
              else if Z.even m then m else m + 1 in
    Z.sgn n * (m' * 2 ^ e).

(** Rounded magnitudes from [2^1024] on are beyond the largest finite
    binary64. *)
Definition DBL_LIMIT : Z := 2 ^ 1024.

(** - [Fint z]: the finite float whose value is the integer [z];
    - [Funtracked]: a finite float whose value the model does not follow
      (the quotient of two integers that do not divide);
    - [Finf], [Fnan]: an infinity (of either sign) and not-a-number. *)
Inductive pyfloat : Type :=
  | Fint (z : Z)
  | Funtracked
  | Finf
  | Fnan.

(** [float(n)] as done implicitly when an [int] meets a [float]. *)
Definition float_of_int (n : Z) : result pyfloat :=
  let r := round53 n in
  if DBL_LIMIT <=? Z.abs r then Err OverflowError else Ok (Fint r).

(** [a % b] on integers. *)
Definition int_mod (a b : Z) : result Z :=
  if b =? 0 then Err ZeroDivisionError else Ok (a mod b).

(** [a / b] on integers: the correctly rounded quotient. *)
Definition true_div (a b : Z) : result pyfloat :=
  if b =? 0 then Err ZeroDivisionError
  else if (2 ^ 1024 - 2 ^ 970) * Z.abs b <=? Z.abs a then Err OverflowError
  else if a mod b =? 0 then Ok (Fint (round53 (a / b)))
  else Ok Funtracked.

(** [x * y] on floats: overflow yields an infinity, it does not raise. *)
Definition float_mul (x y : pyfloat) : result pyfloat :=
  match x, y with
  | Fint a, Fint b =>
      let p := round53 (a * b) in
      Ok (if DBL_LIMIT <=? Z.abs p then Finf else Fint p)
  | Fnan, (Fint _ | Finf | Fnan) | (Fint _ | Finf), Fnan => Ok Fnan
  | Finf, Finf => Ok Finf
  | Finf, Fint b | Fint b, Finf => Ok (if b =? 0 then Fnan else Finf)
  | Funtracked, _ | _, Funtracked => Err NotModelled
  end.

(** [x % y] on floats, as CPython's [float_rem]: a zero divisor raises,
    otherwise C's [fmod] (the remainder with the sign of [x], always exact)
    is moved to the sign of [y] by one addition. *)
Definition float_mod (x y : pyfloat) : result pyfloat :=
  match x, y with
  | _, Fint 0 => Err ZeroDivisionError
  | Fint a, Fint b =>
      let m := Z.rem a b in
      if m =? 0 then Ok (Fint 0)
      else if xorb (b <? 0) (m <? 0) then Ok (Fint (round53 (m + b)))
      else Ok (Fint m)
  | (Finf | Fnan), Fint _ => Ok Fnan
  | (Fint _ | Finf | Fnan), Fnan => Ok Fnan
  | Finf, Finf => Ok Fnan
  | _, _ => Err NotModelled
  end.

(** [x // y] on floats, as CPython's [float_floor_div]: from the exact
    [fmod], [div = (x - mod) / y], one less when the remainder changes
    sign.  The quotient is followed while it is a whole number, which it
    is whenever [x - mod] needs no rounding. *)
Definition float_floordiv (x y : pyfloat) : result pyfloat :=
  match x, y with
  | _, Fint 0 => Err ZeroDivisionError
  | Fint a, Fint b =>
      let m := Z.rem a b in
      let s := round53 (a - m) in
      if s mod b =? 0 then
        let d := round53 (s / b) in
        if negb (m =? 0) && xorb (b <? 0) (m <? 0)
        then Ok (Fint (round53 (d - 1)))
        else Ok (Fint d)
      else Err NotModelled
  | _, _ => Err NotModelled
  end.

(** [x == 0] on a float. *)
Definition float_eq0 (x : pyfloat) : result bool :=
  match x with
  | Fint a => Ok (a =? 0)
  | Finf | Fnan => Ok false
  | Funtracked => Err NotModelled
  end.

(** [int(x)] on a float. *)
Definition int_of_float (x : pyfloat) : result Z :=
  match x with
  | Fint a => Ok a
  | Finf => Err OverflowError
  | Fnan => Err (ValueError "cannot convert float NaN to integer")
  | Funtracked => Err NotModelled
  end.

(** ** The validator *)

(** [valid_input image_size tile_size ordering], lines 8-31. *)
Definition valid_input (image_size tile_size : Z * Z) (ordering : list Z)
  : result bool :=
  (* if len(set(ordering)) != len(ordering): return False *)
  if negb (size (list_to_set ordering : gset Z) =? length ordering)%nat
  then Ok false
  else
    (* image_size[0] % tile_size[0] == 0 and image_size[1] % tile_size[1] == 0 *)
    r0 ← int_mod image_size.1 tile_size.1;
    if negb (r0 =? 0) then Ok false
    else
      r1 ← int_mod image_size.2 tile_size.2;
      if r1 =? 0 then
        cols ← true_div image_size.1 tile_size.1;
        rows ← true_div image_size.2 tile_size.2;
        (* cols*rows % len(ordering) == 0 *)
        total ← float_mul cols rows;
        n ← float_of_int (Z.of_nat (length ordering));
        m ← float_mod total n;
        z ← float_eq0 m;
        if (z : bool) then Ok true else Ok false
      else Ok false.

(** ** Python sequences *)

(** [range(start, stop, step)] as the list of its values. *)
Definition py_range (start stop step : Z) : result (list Z) :=
  if step =? 0 then Err (ValueError "range() arg 3 must not be zero")
  else
    let n := if 0 <? step
             then (if start <? stop then (stop - start + step - 1) / step else 0)
             else (if stop <? start then (start - stop - step - 1) / (- step) else 0) in
    Ok ((λ k, start + k * step) <$> seqZ 0 n).

(** [l[i]]: a negative index counts from the end, an index out of
    [-len(l) .. len(l)-1] raises [IndexError]. *)
Definition py_getitem {A} (l : list A) (i : Z) : result A :=
  let len := Z.of_nat (length l) in
  let j := if i <? 0 then i + len else i in
  if (j <? 0) || (len <=? j) then Err IndexError
  else match l !! Z.to_nat j with
       | Some a => Ok a
       | None => Err IndexError
       end.

(** ** The imaging library *)

(** A PIL image: colour mode, size and pixel content.  [getpixel im x y]
    is meaningful for [0 <= x < width im] and [0 <= y < height im]; a pixel
    is the integer of its packed bands, [0] being the fill of a new image. *)
Record Image : Type := mkImage {
  mode : string;
  width : Z;
  height : Z;
  getpixel : Z → Z → Z
}.

(** [Image.new(mode, size)]: a blank image, every pixel [0]. *)
Definition Image_new (image_mode : string) (size : Z * Z) : result Image :=
  if (size.1 <? 0) || (size.2 <? 0)
  then Err (ValueError "Width and height must be >= 0")
  else Ok (mkImage image_mode size.1 size.2 (λ _ _, 0)).

(** [image.crop((left, upper, right, lower))]: a new image of size
    [(right - left, lower - upper)]; what lies outside the source is
    blank.  The program crops boxes with [left < right] and
    [upper < lower] only. *)
Definition crop (image : Image) (box : Z * Z * Z * Z) : Image :=
  let '(left_, upper, right_, lower) := box in
  mkImage (mode image) (right_ - left_) (lower - upper)
    (λ x y,
       if (0 <=? left_ + x) && (left_ + x <? width image)
          && (0 <=? upper + y) && (upper + y <? height image)
       then getpixel image (left_ + x) (upper + y)
       else 0).

(** [dest.paste(part, (left, upper))]: the pixels of [part] replace those
    of [dest] in the rectangle of [part]'s size at [(left, upper)]. *)
Definition paste (dest part : Image) (box : Z * Z) : Image :=
  let '(left_, upper) := box in
  mkImage (mode dest) (width dest) (height dest)
    (λ x y,
       if (left_ <=? x) && (x <? left_ + width part)
          && (upper <=? y) && (y <? upper + height part)
       then getpixel part (x - left_) (y - upper)
       else getpixel dest x y).

(** [Image.open(path)] on a file system [fs]. *)
Definition Image_open (fs : gmap string Image) (path : string) : result Image :=
  match fs !! path with
  | Some image => Ok image
  | None => Err FileNotFoundError
  end.

(** ** The splitter *)

(** The outer loop of [split_image_with_tile] over the remaining row
    offsets [ys], [parts] being the tiles collected so far. *)
Fixpoint split_rows (image : Image) (tile_width tile_height : Z)
    (ys : list Z) (parts : list Image) : result (list Image) :=
  match ys with
  | [] => Ok parts
  | y :: ys' =>
      xs ← py_range 0 (width image) tile_width;
      split_rows image tile_width tile_height ys'
        (parts ++ ((λ x, crop image (x, y, x + tile_width, y + tile_height)) <$> xs))
  end.

(** [split_image_with_tile image tile_size], lines 68-93. *)
Definition split_image_with_tile (image : Image) (tile_size : Z * Z)
  : result (list Image) :=
  let '(tile_width, tile_height) := tile_size in
  ys ← py_range 0 (height image) tile_height;
  split_rows image tile_width tile_height ys [].

(** ** The joiner *)

(** The loop of [join_parts] over [enumerate(order)], [idx] being the
    position of the head of [order]. *)
Fixpoint join_loop (parts : list Image) (cols : pyfloat)
    (part_width part_height : Z) (idx : Z) (order : list Z)
    (joined_image : Image) : result Image :=
  match order with
  | [] => Ok joined_image
  | part_idx :: order' =>
      part ← py_getitem parts part_idx;
      fidx ← float_of_int idx;
      c ← float_mod fidx cols;
      col_idx ← int_of_float c;
      r ← float_floordiv fidx cols;
      row_idx ← int_of_float r;
      let left_ := col_idx * part_width in
      let upper := row_idx * part_height in
      join_loop parts cols part_width part_height (idx + 1) order'
        (paste joined_image part (left_, upper))
  end.

(** [join_parts parts order rows cols image_mode], lines 95-125.  [rows]
    and [cols] are the floats computed by the caller. *)
Definition join_parts (parts : list Image) (order : list Z)
    (rows cols : pyfloat) (image_mode : string) : result Image :=
  first ← py_getitem parts 0;
  let part_width := width first in
  let part_height := height first in
  fw ← float_of_int part_width;
  w ← float_mul cols fw;
  width ← int_of_float w;
  fh ← float_of_int part_height;
  h ← float_mul rows fh;
  height ← int_of_float h;
  joined_image ← Image_new image_mode (width, height);
  join_loop parts cols part_width part_height 0 order joined_image.

(** ** The orchestrator *)

Definition invalid_message : string :=
  "The tile size or ordering are not valid for the given image".

(** [rearrange_tiles image_path tile_size ordering out_path], lines 34-65,
    on the file system [fs]: the outcome and the file system afterwards.
    Lines 47-62 are followed as they are; line 65, [final_image.save], is
    followed in its accepting run only (see the introduction). *)
Definition rearrange_tiles (fs : gmap string Image) (image_path : string)
    (tile_size : Z * Z) (ordering : list Z) (out_path : string)
  : result unit * gmap string Image :=
  let final :=
    image ← Image_open fs image_path;
    let image_size := (width image, height image) in
    cols ← true_div image_size.1 tile_size.1;
    rows ← true_div image_size.2 tile_size.2;
    let image_mode := mode image in
    valid ← valid_input image_size tile_size ordering;
    if negb valid then Err (ValueError invalid_message)
    else
      parts ← split_image_with_tile image tile_size;
      join_parts parts ordering rows cols image_mode in
  match final with
  | Ok final_image => (Ok (), <[out_path := final_image]> fs)
  | Err e => (Err e, fs)
  end.

(** ** Sample runs *)

(** A 4x4 image whose pixel at [(x, y)] is [x + 10 * y]. *)
Definition sample : Image := mkImage "L" 4 4 (λ x y, x + 10 * y).

(** The pixels of the top-left [w] x [h] corner, row by row. *)
Definition pixels (w h : Z) (im : Image) : list (list Z) :=
  (λ y, (λ x, getpixel im x y) <$> seqZ 0 w) <$> seqZ 0 h.

Definition rearranged (image : Image) (tile_size : Z * Z) (ordering : list Z)
  : result (list (list Z)) :=
  match rearrange_tiles {[ "in.png" := image ]} "in.png" tile_size ordering "out.png" with
  | (Ok _, fs) =>
      match fs !! "out.png" with
      | Some out => Ok (pixels (width out) (height out) out)
      | None => Err FileNotFoundError
      end
  | (Err e, _) => Err e
  end.

(** ** Vocabulary of the properties *)

(** Every integer of magnitude up to [2^53] is a binary64. *)
Definition float_exact (n : Z) : Prop := Z.abs n ≤ 2 ^ 53.

(** The tile at column [c] and row [r] of the grid. *)
Definition tile (image : Image) (tw th c r : Z) : Image :=
  crop image (c * tw, r * th, c * tw + tw, r * th + th).

(** The pixel [(x, y)] lies in grid cell [idx] of a grid of [c] columns
    of tiles of size [(pw, ph)]. *)
Definition in_cell (c pw ph idx x y : Z) : Prop :=
  idx mod c * pw ≤ x < idx mod c * pw + pw
  ∧ idx / c * ph ≤ y < idx / c * ph + ph.

(** An image as PIL holds one: positive dimensions, and a pixel count
    within the exact range of a float (the pixels are stored in memory). *)
Definition wf_image (image : Image) : Prop :=
  0 < width image ∧ 0 < height image ∧ width image * height image ≤ 2 ^ 53.

(** * Properties *)

Lemma bind_Ok {A B} (f : A → result B) (a : A) : Ok a ≫= f = f a.
Proof. reflexivity. Qed.

Lemma bind_Err {A B} (f : A → result B) (e : exn) : Err e ≫= f = Err e.
Proof. reflexivity. Qed.

(** Run the binds whose first computation is known. *)
Ltac run := repeat (rewrite ?bind_Ok, ?bind_Err; cbv beta).

(** ** Sample runs *)

Example valid_input_reverse :
  valid_input (512, 512) (256, 256) [3; 2; 1; 0] = Ok true.
Proof. vm_compute. reflexivity. Qed.

Example valid_input_indivisible :
  valid_input (512, 512) (100, 256) [3; 2; 1; 0] = Ok false.
Proof. vm_compute. reflexivity. Qed.

Example rearranged_reverse :
  rearranged sample (2, 2) [3; 2; 1; 0]
  = Ok [[22; 23; 20; 21]; [32; 33; 30; 31]; [2; 3; 0; 1]; [12; 13; 10; 11]].
Proof. vm_compute. reflexivity. Qed.

(** ** Floats in their exact range *)

Lemma round53_exact n : float_exact n → round53 n = n.
Proof.
  unfold float_exact, round53. intros Hn.
  destruct (decide (Z.abs n = 2 ^ 53)) as [Heq|Hne].
  - destruct (Z.abs_eq_or_opp n) as [E|E]; rewrite E in Heq.
    + subst n. vm_compute. reflexivity.
    + assert (n = - 2 ^ 53) as -> by lia. vm_compute. reflexivity.
  - destruct (decide (n = 0)) as [->|Hz]; [reflexivity|].
    assert (Z.log2 (Z.abs n) < 53) by (apply Z.log2_lt_pow2; lia).
    destruct (Z.leb_spec (Z.log2 (Z.abs n) - 52) 0); [reflexivity|lia].
Qed.

Lemma float_exact_lt_limit n : float_exact n → (DBL_LIMIT <=? Z.abs n) = false.
Proof.
  unfold float_exact, DBL_LIMIT. intros Hn. apply Z.leb_gt.
  eapply Z.le_lt_trans; [apply Hn|]. apply Z.pow_lt_mono_r; lia.
Qed.

Lemma float_of_int_exact n : float_exact n → float_of_int n = Ok (Fint n).
Proof.
  intros Hn. unfold float_of_int. cbv zeta.
  rewrite (round53_exact n Hn), (float_exact_lt_limit n Hn). reflexivity.
Qed.

Lemma true_div_exact a b :
  b ≠ 0 → a mod b = 0 → float_exact (a / b) → true_div a b = Ok (Fint (a / b)).
Proof.
  intros Hb Hmod Hq. unfold true_div.
  destruct (Z.eqb_spec b 0) as [|_]; [done|].
  rewrite Hmod, Z.eqb_refl, (round53_exact _ Hq).
  destruct (Z.leb_spec ((2 ^ 1024 - 2 ^ 970) * Z.abs b) (Z.abs a)) as [Hov|]; [|done].
  exfalso.
  assert (a = b * (a / b)) as Ha by (apply Z.div_exact; done).
  assert (Z.abs a = Z.abs b * Z.abs (a / b)) as Habs by (rewrite <- Z.abs_mul; congruence).
  unfold float_exact in Hq.
  assert (2 ^ 53 < 2 ^ 1024 - 2 ^ 970) by (vm_compute; reflexivity).
  nia.
Qed.

Lemma float_mul_exact a b :
  float_exact (a * b) → float_mul (Fint a) (Fint b) = Ok (Fint (a * b)).
Proof.
  intros Hp. unfold float_mul. cbv zeta.
  rewrite (round53_exact _ Hp), (float_exact_lt_limit _ Hp). reflexivity.
Qed.

(** On a non-negative dividend and a positive divisor, [%] and [//] on
    floats are the integer remainder and quotient. *)
Lemma float_mod_nonneg a b :
  0 ≤ a → 0 < b → float_mod (Fint a) (Fint b) = Ok (Fint (a mod b)).
Proof.
  intros Ha Hb. unfold float_mod.
  destruct b as [|b|b]; try lia.
  rewrite Z.rem_mod_nonneg by lia. cbv zeta.
  pose proof (Z.mod_pos_bound a (Z.pos b) ltac:(lia)).
  destruct (Z.eqb_spec (a mod Z.pos b) 0) as [->|]; [done|].
  replace (Z.pos b <? 0) with false by (symmetry; apply Z.ltb_ge; lia).
  replace (a mod Z.pos b <? 0) with false by (symmetry; apply Z.ltb_ge; lia).
  reflexivity.
Qed.

Lemma float_floordiv_nonneg a b :
  0 ≤ a → 0 < b → float_exact a →
  float_floordiv (Fint a) (Fint b) = Ok (Fint (a / b)).
Proof.
  intros Ha Hb Hex. unfold float_floordiv.
  destruct b as [|b|b]; try lia.
  rewrite Z.rem_mod_nonneg by lia. cbv zeta.
  pose proof (Z.mod_pos_bound a (Z.pos b) ltac:(lia)) as Hm.
  pose proof (Z.div_mod a (Z.pos b) ltac:(lia)) as Hdm.
  assert (0 ≤ a / Z.pos b) by (apply Z.div_pos; lia).
  assert (a / Z.pos b ≤ a) by (apply Z.div_le_upper_bound; nia).
  unfold float_exact in Hex.
  rewrite (round53_exact (a - a mod Z.pos b)) by (unfold float_exact; lia).
  replace (a - a mod Z.pos b) with (a / Z.pos b * Z.pos b) by lia.
  rewrite Z.mod_mul, Z.eqb_refl, Z.div_mul by lia.
  rewrite (round53_exact (a / Z.pos b)) by (unfold float_exact; lia).
  replace (Z.pos b <? 0) with false by (symmetry; apply Z.ltb_ge; lia).
  replace (a mod Z.pos b <? 0) with false by (symmetry; apply Z.ltb_ge; lia).
  rewrite andb_false_r. reflexivity.
Qed.

(** Whether the float remainder is zero, for any signs. *)
Lemma float_mod_eq0 a b :
  b ≠ 0 → float_exact b →
  float_mod (Fint a) (Fint b) ≫= float_eq0 = Ok (bool_decide (a mod b = 0)).
Proof.
  intros Hb Hex.
  pose proof (Z.rem_mod_eq_0 a b Hb) as Hiff.
  pose proof (Z.rem_bound_abs a b Hb) as Hbd.
  assert (float_mod (Fint a) (Fint b)
          = if Z.rem a b =? 0 then Ok (Fint 0)
            else if xorb (b <? 0) (Z.rem a b <? 0)
                 then Ok (Fint (round53 (Z.rem a b + b)))
                 else Ok (Fint (Z.rem a b))) as ->
    by (destruct b; done).
  destruct (Z.eqb_spec (Z.rem a b) 0) as [Hz|Hz]; cbn.
  { rewrite bool_decide_eq_true_2; tauto. }
  rewrite bool_decide_eq_false_2 by tauto.
  unfold float_exact in Hex.
  destruct (Z.ltb_spec b 0), (Z.ltb_spec (Z.rem a b) 0); cbn;
    f_equal; apply Z.eqb_neq; try done.
  all: rewrite round53_exact by (unfold float_exact; lia); lia.
Qed.

(** ** The validator *)

Section validator.
Implicit Types (ordering : list Z) (image_size tile_size : Z * Z).

Lemma size_list_to_set_le ordering :
  (size (list_to_set ordering : gset Z) ≤ length ordering)%nat.
Proof.
  induction ordering as [|v l IH]; cbn [list_to_set length].
  - rewrite size_empty. lia.
  - rewrite size_union_alt, size_singleton.
    assert (size (list_to_set l ∖ {[v]} : gset Z) ≤ size (list_to_set l : gset Z))%nat
      by (apply subseteq_size, subseteq_difference_l; done).
    lia.
Qed.

(** [len(set(ordering)) == len(ordering)] says that no value repeats. *)
Lemma size_list_to_set_NoDup ordering :
  size (list_to_set ordering : gset Z) = length ordering ↔ NoDup ordering.
Proof.
  split; [|apply size_list_to_set].
  induction ordering as [|v l IH]; cbn [list_to_set length]; intros Hsz.
  - constructor.
  - pose proof (size_list_to_set_le l) as Hle.
    destruct (decide (v ∈ l)) as [Hin|Hnin].
    + assert ({[v]} ∪ list_to_set l = (list_to_set l : gset Z)) as Heq
        by (apply subseteq_union_1_L, singleton_subseteq_l, elem_of_list_to_set; done).
      rewrite Heq in Hsz. lia.
    + constructor; [done|]. apply IH.
      rewrite size_union, size_singleton in Hsz
        by (apply disjoint_singleton_l; by rewrite elem_of_list_to_set).
      lia.
Qed.

Lemma valid_input_dup image_size tile_size ordering :
  ¬ NoDup ordering → valid_input image_size tile_size ordering = Ok false.
Proof.
  intros Hdup. unfold valid_input.
  destruct (Nat.eqb_spec (size (list_to_set ordering : gset Z)) (length ordering))
    as [Heq|]; [|done].
  by apply size_list_to_set_NoDup in Heq.
Qed.

Lemma valid_input_NoDup image_size tile_size ordering :
  NoDup ordering →
  valid_input image_size tile_size ordering =
    (r0 ← int_mod image_size.1 tile_size.1;
     if negb (r0 =? 0) then Ok false
     else
       r1 ← int_mod image_size.2 tile_size.2;
       if r1 =? 0 then
         cols ← true_div image_size.1 tile_size.1;
         rows ← true_div image_size.2 tile_size.2;
         total ← float_mul cols rows;
         n ← float_of_int (Z.of_nat (length ordering));
         m ← float_mod total n;
         z ← float_eq0 m;
         if (z : bool) then Ok true else Ok false
       else Ok false).
Proof.
  intros Hnd. unfold valid_input.
  apply size_list_to_set_NoDup in Hnd. rewrite Hnd, Nat.eqb_refl. reflexivity.
Qed.

(** C3. An ordering in which some value occurs at two positions is
    rejected: the validator returns false whatever the image size and
    the tile size are, a zero tile dimension included. *)
Theorem valid_input_rejects_duplicates image_size tile_size ordering
    (i j : nat) (v : Z) :
  i ≠ j → ordering !! i = Some v → ordering !! j = Some v →
  valid_input image_size tile_size ordering = Ok false.
Proof.
  intros Hij Hi Hj. apply valid_input_dup. intros Hnd.
  apply Hij. eapply NoDup_lookup; eauto.
Qed.

Lemma valid_input_rejects_duplicates_witness :
  valid_input (300, 200) (0, 0) [5; 7; 5] = Ok false.
Proof.
  apply (valid_input_rejects_duplicates (300, 200) (0, 0) [5; 7; 5] 0 2 5);
    [lia | reflexivity | reflexivity].
Defined.

(** What the validator computes on an ordering without repeated values,
    while every float involved is exact. *)
Lemma valid_input_exact (W H tw th : Z) ordering :
  NoDup ordering → ordering ≠ [] → tw ≠ 0 → th ≠ 0 →
  float_exact (W / tw) → float_exact (H / th) →
  float_exact (W / tw * (H / th)) →
  float_exact (Z.of_nat (length ordering)) →
  valid_input (W, H) (tw, th) ordering =
    Ok (bool_decide (W mod tw = 0 ∧ H mod th = 0 ∧
                     (W / tw * (H / th)) mod Z.of_nat (length ordering) = 0)).
Proof.
  intros Hnd Hne Htw Hth Hc Hr Hp Hn.
  rewrite valid_input_NoDup by done. cbn [fst snd]. unfold int_mod.
  destruct (Z.eqb_spec tw 0) as [|_]; [done|].
  destruct (Z.eqb_spec th 0) as [|_]; [done|]. run.
  destruct (Z.eqb_spec (W mod tw) 0) as [HW|HW]; cbn [negb];
    [|rewrite bool_decide_eq_false_2; tauto].
  run.
  destruct (Z.eqb_spec (H mod th) 0) as [HH|HH];
    [|rewrite bool_decide_eq_false_2; tauto].
  rewrite !true_div_exact by done. run.
  rewrite float_mul_exact by done. run.
  rewrite float_of_int_exact by done. run.
  assert (Z.of_nat (length ordering) ≠ 0) as Hlen by (destruct ordering; cbn in *; [done|lia]).
  pose proof (float_mod_eq0 (W / tw * (H / th)) _ Hlen Hn) as Hm.
  destruct (float_mod _ _) as [m|e]; run; rewrite ?bind_Ok, ?bind_Err in Hm; [|done].
  rewrite Hm.
  destruct (decide ((W / tw * (H / th)) mod Z.of_nat (length ordering) = 0)).
  - rewrite !bool_decide_eq_true_2; tauto.
  - rewrite !bool_decide_eq_false_2; tauto.
Qed.

End validator.

(** C4 (as stated).  The count rule alone does not decide the validator:
    on a 2x2 image with 1x1 tiles and the ordering [0; 0] both dimensions
    divide and [4 % 2 == 0], yet the validator returns false. *)
Lemma count_rule_ignores_duplicates :
  ¬ (∀ (W H tw th : Z) (ordering : list Z),
       W mod tw = 0 → H mod th = 0 →
       (valid_input (W, H) (tw, th) ordering = Ok true
        ↔ (W / tw * (H / th)) mod Z.of_nat (length ordering) = 0)).
Proof.
  intros Hclaim.
  destruct (Hclaim 2 2 1 1 [0; 0] eq_refl eq_refl) as [_ Hback].
  specialize (Hback eq_refl). vm_compute in Hback. discriminate Hback.
Qed.

(** C4 (amended).  For a non-empty ordering without repeated values and
    non-zero tile dimensions that divide the image dimensions, with the
    grid dimensions, the tile count and the ordering length in the exact
    range of a float, the validator returns true if and only if
    [(W/tw * H/th) % len(ordering) == 0], and false otherwise. *)
Theorem valid_input_count_rule (W H tw th : Z) (ordering : list Z) :
  NoDup ordering → ordering ≠ [] → tw ≠ 0 → th ≠ 0 →
  float_exact (W / tw) → float_exact (H / th) →
  float_exact (W / tw * (H / th)) →
  float_exact (Z.of_nat (length ordering)) →
  W mod tw = 0 → H mod th = 0 →
  valid_input (W, H) (tw, th) ordering =
    Ok (bool_decide ((W / tw * (H / th)) mod Z.of_nat (length ordering) = 0)).
Proof.
  intros Hnd Hne Htw Hth Hc Hr Hp Hn HW HH.
  rewrite valid_input_exact by done.
  f_equal. apply bool_decide_ext. tauto.
Qed.

Lemma valid_input_count_rule_witness :
  valid_input (300, 200) (100, 50) [0; 1; 2; 3; 4; 5] = Ok true
  ∧ valid_input (300, 200) (100, 50) [0; 1; 2; 3; 4] = Ok false.
Proof.
  split.
  - apply (valid_input_count_rule 300 200 100 50 [0; 1; 2; 3; 4; 5]).
    + apply (bool_decide_unpack _). vm_compute. exact I.
    + discriminate.
    + lia.
    + lia.
    + unfold float_exact. vm_compute. discriminate.
    + unfold float_exact. vm_compute. discriminate.
    + unfold float_exact. vm_compute. discriminate.
    + unfold float_exact. vm_compute. discriminate.
    + reflexivity.
    + reflexivity.
  - apply (valid_input_count_rule 300 200 100 50 [0; 1; 2; 3; 4]).
    + apply (bool_decide_unpack _). vm_compute. exact I.
    + discriminate.
    + lia.
    + lia.
    + unfold float_exact. vm_compute. discriminate.
    + unfold float_exact. vm_compute. discriminate.
    + unfold float_exact. vm_compute. discriminate.
    + unfold float_exact. vm_compute. discriminate.
    + reflexivity.
    + reflexivity.
Defined.

(** Beyond the exact range the count is taken on rounded floats: a width
    of [2^53 + 1] is read as [2^53], so an ordering of length 2 passes
    although [(2^53 + 1) % 2 = 1]. *)
Lemma valid_input_rounds_large_counts :
  valid_input (2 ^ 53 + 1, 1) (1, 1) [0; 1] = Ok true
  ∧ ((2 ^ 53 + 1) / 1 * (1 / 1)) mod 2 = 1.
Proof. split; vm_compute; reflexivity. Qed.

(** C5.  The validator raises instead of returning a boolean: on a zero
    tile width or height the integer [%] raises [ZeroDivisionError], and
    on the empty ordering the float [%] by [len(ordering)] does. *)
Theorem valid_input_raises :
  valid_input (4, 4) (0, 2) [0] = Err ZeroDivisionError
  ∧ valid_input (4, 4) (2, 0) [0] = Err ZeroDivisionError
  ∧ valid_input (4, 4) (2, 2) [] = Err ZeroDivisionError.
Proof. repeat split; vm_compute; reflexivity. Qed.

(** X4. Where the validator does return a boolean: non-zero tile
    dimensions, a non-empty ordering, and sizes that a float can hold. *)
Lemma valid_input_returns (W H tw th : Z) (ordering : list Z) :
  tw ≠ 0 → th ≠ 0 → ordering ≠ [] →
  Z.abs W < 2 ^ 1024 - 2 ^ 970 → Z.abs H < 2 ^ 1024 - 2 ^ 970 →
  float_exact (Z.of_nat (length ordering)) →
  ∃ b : bool, valid_input (W, H) (tw, th) ordering = Ok b.
Proof.
  intros Htw Hth Hne HW HH Hn.
  destruct (decide (NoDup ordering)) as [Hnd|Hnd];
    [|by rewrite valid_input_dup; eauto].
  rewrite valid_input_NoDup by done. cbn [fst snd]. unfold int_mod.
  destruct (Z.eqb_spec tw 0) as [|_]; [done|].
  destruct (Z.eqb_spec th 0) as [|_]; [done|]. run.
  destruct (Z.eqb_spec (W mod tw) 0) as [HdW|]; cbn [negb]; [|eauto]. run.
  destruct (Z.eqb_spec (H mod th) 0) as [HdH|]; [|eauto].
  unfold true_div.
  destruct (Z.eqb_spec tw 0) as [|_]; [done|].
  destruct (Z.eqb_spec th 0) as [|_]; [done|].
  destruct (Z.leb_spec ((2 ^ 1024 - 2 ^ 970) * Z.abs tw) (Z.abs W)); [nia|].
  destruct (Z.leb_spec ((2 ^ 1024 - 2 ^ 970) * Z.abs th) (Z.abs H)); [nia|].
  rewrite HdW, HdH, Z.eqb_refl. run.
  rewrite float_of_int_exact by done.
  assert (Z.of_nat (length ordering) ≠ 0) as Hlen
    by (destruct ordering; cbn in *; [done|lia]).
  unfold float_mul. cbv zeta.
  destruct (DBL_LIMIT <=? _); run.
  - destruct (Z.of_nat (length ordering)) eqn:E; [done| |]; cbn; eauto.
  - pose proof (float_mod_eq0 (round53 (round53 (W / tw) * round53 (H / th))) _ Hlen Hn)
      as Hm.
    destruct (float_mod _ _) as [m|e]; [|done].
    rewrite bind_Ok in Hm. run. rewrite Hm. destruct (bool_decide _); eauto.
Qed.

(** What a successful validation tells about its input. *)
Lemma valid_input_true_inv (W H tw th : Z) (ordering : list Z) :
  valid_input (W, H) (tw, th) ordering = Ok true →
  NoDup ordering ∧ ordering ≠ [] ∧ tw ≠ 0 ∧ th ≠ 0
  ∧ W mod tw = 0 ∧ H mod th = 0.
Proof.
  intros Hv.
  destruct (decide (NoDup ordering)) as [Hnd|Hnd];
    [|by rewrite valid_input_dup in Hv].
  rewrite valid_input_NoDup in Hv by done. cbn [fst snd] in Hv.
  unfold int_mod in Hv.
  destruct (Z.eqb_spec tw 0) as [|Htw]; [done|]. rewrite bind_Ok in Hv.
  destruct (Z.eqb_spec (W mod tw) 0) as [HW|]; [|done]. cbn [negb] in Hv.
  destruct (Z.eqb_spec th 0) as [|Hth]; [done|]. rewrite bind_Ok in Hv.
  destruct (Z.eqb_spec (H mod th) 0) as [HH|]; [|done].
  repeat split; try done.
  intros ->.
  destruct (true_div W tw) as [cols|]; [|done]. rewrite bind_Ok in Hv.
  destruct (true_div H th) as [rows|]; [|done]. rewrite bind_Ok in Hv.
  destruct (float_mul cols rows) as [total|]; [|done]. rewrite bind_Ok in Hv.
  change (float_of_int (Z.of_nat (length (@nil Z)))) with (Ok (A:=pyfloat) (Fint 0)) in Hv.
  rewrite bind_Ok in Hv. by destruct total.
Qed.

(** ** The splitter *)

Lemma py_range_steps (stop step : Z) :
  0 ≤ stop → 0 < step → stop mod step = 0 →
  py_range 0 stop step = Ok ((λ k, k * step) <$> seqZ 0 (stop / step)).
Proof.
  intros Hstop Hstep Hmod. unfold py_range.
  destruct (Z.eqb_spec step 0) as [|_]; [lia|].
  destruct (Z.ltb_spec 0 step) as [_|]; [|lia].
  f_equal. f_equal.
  assert (stop = step * (stop / step)) as Hq by (apply Z.div_exact; lia).
  destruct (Z.ltb_spec 0 stop) as [Hpos|Hz].
  - f_equal. symmetry. apply (Z.div_unique _ _ _ (step - 1)); lia.
  - assert (stop = 0) as -> by lia. rewrite Z.div_0_l by lia. reflexivity.
Qed.

Section splitter.
Variables (image : Image) (tw th : Z).

Local Abbreviation row xs :=
  (λ y, (λ x, crop image (x, y, x + tw, y + th)) <$> xs).

Lemma split_rows_spec (xs ys : list Z) (parts : list Image) :
  py_range 0 (width image) tw = Ok xs →
  split_rows image tw th ys parts = Ok (parts ++ mjoin (row xs <$> ys)).
Proof.
  intros Hxs. revert parts.
  induction ys as [|y ys' IH]; intros parts; cbn [split_rows].
  - cbn. by rewrite app_nil_r.
  - rewrite Hxs, bind_Ok, IH. cbn. by rewrite <- app_assoc.
Qed.

Hypothesis (HW : 0 ≤ width image) (HH : 0 ≤ height image).
Hypothesis (Htw : 0 < tw) (Hth : 0 < th).
Hypothesis (HdivW : width image mod tw = 0) (HdivH : height image mod th = 0).

Local Abbreviation cols := (width image / tw).
Local Abbreviation rows := (height image / th).

Lemma grid_nonneg : 0 ≤ cols ∧ 0 ≤ rows.
Proof. split; apply Z.div_pos; lia. Qed.

Lemma grid_size : cols * tw = width image ∧ rows * th = height image.
Proof.
  pose proof (Z.div_exact (width image) tw ltac:(lia)) as [_ H1].
  pose proof (Z.div_exact (height image) th ltac:(lia)) as [_ H2].
  specialize (H1 HdivW). specialize (H2 HdivH). lia.
Qed.

(** The splitter returns the [rows * cols] tiles of the grid in
    row-major order. *)
Lemma split_image_with_tile_spec :
  ∃ parts,
    split_image_with_tile image (tw, th) = Ok parts
    ∧ length parts = Z.to_nat (rows * cols)
    ∧ ∀ i, 0 ≤ i < rows * cols →
        parts !! Z.to_nat i = Some (tile image tw th (i mod cols) (i / cols)).
Proof.
  pose proof grid_nonneg as [Hc Hr].
  eexists. split; [|split].
  - unfold split_image_with_tile.
    rewrite (py_range_steps (height image) th) by done. rewrite bind_Ok.
    rewrite (split_rows_spec ((λ k, k * tw) <$> seqZ 0 cols)) by (by apply py_range_steps).
    reflexivity.
  - cbn [app]. rewrite length_join, <- list_fmap_compose.
    rewrite (sum_list_fmap_same (Z.to_nat cols)).
    + rewrite length_fmap, length_seqZ. lia.
    + apply Forall_forall. intros y _. cbn.
      by rewrite !length_fmap, length_seqZ.
  - intros i Hi. cbn [app].
    assert (0 < cols) as Hcpos by nia.
    pose proof (Z.div_mod i cols ltac:(lia)) as Hdm.
    pose proof (Z.mod_pos_bound i cols Hcpos) as Hmb.
    assert (0 ≤ i / cols) by (apply Z.div_pos; lia).
    assert (i / cols < rows) by (apply Z.div_lt_upper_bound; lia).
    replace (Z.to_nat i)
      with (Z.to_nat (i / cols) * Z.to_nat cols + Z.to_nat (i mod cols))%nat by nia.
    apply (join_lookup_Some_same_length' (Z.to_nat cols)).
    + apply Forall_fmap, Forall_forall. intros y _. cbn.
      by rewrite !length_fmap, length_seqZ.
    + lia.
    + eexists. split.
      * rewrite !list_lookup_fmap, lookup_seqZ_lt by lia. reflexivity.
      * rewrite !list_lookup_fmap, lookup_seqZ_lt by lia. cbn.
        unfold tile. rewrite !Z2Nat.id by lia. reflexivity.
Qed.

End splitter.

(** ** List indexing *)

Section getitem.
Context {A : Type}.
Implicit Types (l : list A) (i : Z).

Lemma py_getitem_nonneg l i a :
  0 ≤ i → l !! Z.to_nat i = Some a → py_getitem l i = Ok a.
Proof.
  intros Hi Hl. unfold py_getitem. cbv zeta.
  pose proof (lookup_lt_Some _ _ _ Hl).
  destruct (Z.ltb_spec i 0); [lia|].
  destruct (Z.ltb_spec i 0); [lia|].
  destruct (Z.leb_spec (Z.of_nat (length l)) i); [lia|].
  cbn. by rewrite Hl.
Qed.

Lemma py_getitem_in_range l i :
  - Z.of_nat (length l) ≤ i < Z.of_nat (length l) →
  ∃ a, py_getitem l i = Ok a ∧ a ∈ l.
Proof.
  intros Hi. unfold py_getitem. cbv zeta.
  set (j := if i <? 0 then i + Z.of_nat (length l) else i).
  assert (0 ≤ j < Z.of_nat (length l)) as Hj
    by (unfold j; destruct (Z.ltb_spec i 0); lia).
  destruct (Z.ltb_spec j 0); [lia|].
  destruct (Z.leb_spec (Z.of_nat (length l)) j); [lia|]. cbn.
  destruct (lookup_lt_is_Some_2 l (Z.to_nat j) ltac:(lia)) as [a Ha].
  rewrite Ha. eexists. split; [done|]. by eapply list_elem_of_lookup_2.
Qed.

Lemma py_getitem_out_of_range l i :
  i < - Z.of_nat (length l) ∨ Z.of_nat (length l) ≤ i →
  py_getitem l i = Err IndexError.
Proof.
  intros Hi. unfold py_getitem. cbv zeta.
  set (j := if i <? 0 then i + Z.of_nat (length l) else i).
  assert (j < 0 ∨ Z.of_nat (length l) ≤ j) as Hj
    by (unfold j; destruct (Z.ltb_spec i 0); lia).
  destruct (Z.ltb_spec j 0); [done|].
  destruct (Z.leb_spec (Z.of_nat (length l)) j); [done|lia].
Qed.

Lemma py_getitem_nil i : py_getitem (@nil A) i = Err IndexError.
Proof. apply py_getitem_out_of_range. cbn. lia. Qed.
End getitem.

(** ** The joiner *)

Section joiner.
Variables (parts : list Image) (c pw ph : Z).
Hypothesis (Hc : 0 < c) (Hpw : 0 < pw) (Hph : 0 < ph).
Hypothesis Hsize : Forall (λ part, width part = pw ∧ height part = ph) parts.

Lemma in_cell_unique i j x y :
  in_cell c pw ph i x y → in_cell c pw ph j x y → i = j.
Proof using Hc Hpw Hph.
  clear Hsize. unfold in_cell. intros [Hi1 Hi2] [Hj1 Hj2].
  assert (i mod c = j mod c) as Hm by nia.
  assert (i / c = j / c) as Hd by nia.
  rewrite (Z.div_mod i c), (Z.div_mod j c) by lia. congruence.
Qed.

(** One run of the loop body at an exact position. *)
Lemma join_loop_cons idx v order joined part :
  0 ≤ idx → float_exact idx → py_getitem parts v = Ok part →
  join_loop parts (Fint c) pw ph idx (v :: order) joined =
  join_loop parts (Fint c) pw ph (idx + 1) order
    (paste joined part (idx mod c * pw, idx / c * ph)).
Proof using Hc.
  clear Hsize. intros Hidx Hex Hget. cbn [join_loop].
  rewrite Hget, bind_Ok, float_of_int_exact, bind_Ok by done.
  rewrite float_mod_nonneg, bind_Ok by done. cbn [int_of_float]. rewrite bind_Ok.
  rewrite float_floordiv_nonneg, bind_Ok by done. cbn [int_of_float].
  by rewrite bind_Ok.
Qed.

(** The loop over an ordering whose values index [parts]: it returns a
    canvas of the same mode and size, unchanged outside the cells it
    visits, and holding in the cell of each position the tile that the
    ordering names there. *)
Lemma join_loop_spec order : ∀ idx joined,
  0 ≤ idx → idx + Z.of_nat (length order) ≤ 2 ^ 53 →
  Forall (λ v, - Z.of_nat (length parts) ≤ v < Z.of_nat (length parts)) order →
  ∃ out,
    join_loop parts (Fint c) pw ph idx order joined = Ok out
    ∧ mode out = mode joined
    ∧ width out = width joined
    ∧ height out = height joined
    ∧ (∀ x y,
         (∀ k, (k < length order)%nat → ¬ in_cell c pw ph (idx + Z.of_nat k) x y) →
         getpixel out x y = getpixel joined x y)
    ∧ (∀ (k : nat) v part x y,
         order !! k = Some v → py_getitem parts v = Ok part →
         in_cell c pw ph (idx + Z.of_nat k) x y →
         getpixel out x y
         = getpixel part (x - (idx + Z.of_nat k) mod c * pw)
                         (y - (idx + Z.of_nat k) / c * ph)).
Proof using Hc Hpw Hph Hsize.
  induction order as [|v order IH]; intros idx joined Hidx Hbound Hrange.
  - eexists. cbn [join_loop]. repeat split; done.
  - cbn [length] in Hbound.
    apply Forall_cons in Hrange as [Hv Hrange].
    destruct (py_getitem_in_range parts v Hv) as (part0 & Hget & Hin).
    pose proof (proj1 (Forall_forall _ _) Hsize _ Hin) as [Hw0 Hh0].
    rewrite (join_loop_cons idx v order joined part0)
      by (done || unfold float_exact; lia).
    set (joined' := paste joined part0 (idx mod c * pw, idx / c * ph)).
    destruct (IH (idx + 1) joined' ltac:(lia) ltac:(lia) Hrange)
      as (out & Hout & Hmode & Hwidth & Hheight & Hrest & Hcells).
    exists out. repeat split; try done.
    + intros x y Hnot. rewrite Hrest.
      * specialize (Hnot 0%nat ltac:(cbn; lia)). rewrite Z.add_0_r in Hnot.
        unfold in_cell in Hnot. cbn. rewrite Hw0, Hh0.
        destruct (Z.leb_spec (idx mod c * pw) x), (Z.ltb_spec x (idx mod c * pw + pw)),
          (Z.leb_spec (idx / c * ph) y), (Z.ltb_spec y (idx / c * ph + ph));
          cbn; try done; lia.
      * intros k Hk. replace (idx + 1 + Z.of_nat k) with (idx + Z.of_nat (S k)) by lia.
        apply Hnot. cbn. lia.
    + intros k w part x y Hk Hpart Hcell. destruct k as [|k].
      * cbn in Hk. injection Hk as <-. rewrite Hget in Hpart. injection Hpart as <-.
        rewrite Z.add_0_r in Hcell |- *. rewrite Hrest.
        -- unfold in_cell in Hcell. cbn. rewrite Hw0, Hh0.
           destruct (Z.leb_spec (idx mod c * pw) x), (Z.ltb_spec x (idx mod c * pw + pw)),
             (Z.leb_spec (idx / c * ph) y), (Z.ltb_spec y (idx / c * ph + ph));
             cbn; try done; lia.
        -- intros k Hk Hother.
           pose proof (in_cell_unique _ _ _ _ Hcell Hother). lia.
      * cbn in Hk.
        replace (idx + Z.of_nat (S k)) with (idx + 1 + Z.of_nat k) in Hcell |- * by lia.
        by eapply Hcells.
Qed.

End joiner.

(** The loop raises [IndexError] at the first value that does not index
    [parts]. *)
Lemma join_loop_index_error (parts : list Image) (c pw ph : Z) (order : list Z) :
  0 < c →
  ∀ idx joined,
    0 ≤ idx → idx + Z.of_nat (length order) ≤ 2 ^ 53 →
    Exists (λ v, v < - Z.of_nat (length parts) ∨ Z.of_nat (length parts) ≤ v) order →
    join_loop parts (Fint c) pw ph idx order joined = Err IndexError.
Proof.
  intros Hc. induction order as [|v order IH]; intros idx joined Hidx Hbound Hbad.
  - by apply Exists_nil in Hbad.
  - cbn [length] in Hbound.
    destruct (decide (v < - Z.of_nat (length parts) ∨ Z.of_nat (length parts) ≤ v))
      as [Hv|Hv].
    + cbn [join_loop]. by rewrite py_getitem_out_of_range.
    + apply Exists_cons in Hbad as [?|Hbad]; [done|].
      destruct (py_getitem_in_range parts v ltac:(lia)) as (part & Hget & _).
      rewrite (join_loop_cons parts c pw ph Hc idx v order joined part)
        by (done || unfold float_exact; lia).
      apply IH; [lia|lia|done].
Qed.

(** ** Splitting, then joining *)

(** An ordering without repeated values, all of them tile numbers, is no
    longer than the tile sequence. *)
Lemma ordering_length_le (ordering : list Z) (n : Z) :
  0 ≤ n → NoDup ordering → Forall (λ v, 0 ≤ v < n) ordering →
  Z.of_nat (length ordering) ≤ n.
Proof.
  intros Hn Hnd Hrange.
  assert (ordering ⊆+ seqZ 0 n) as Hsub.
  { apply NoDup_submseteq; [done|]. intros v Hv. apply elem_of_seqZ.
    pose proof (proj1 (Forall_forall _ _) Hrange v Hv) as Hb. cbn beta in Hb. lia. }
  apply submseteq_length in Hsub. rewrite length_seqZ in Hsub. lia.
Qed.

Section split_join.
Variables (image : Image) (tw th : Z).
Hypothesis Hwf : wf_image image.
Hypothesis (Htw : 0 < tw) (Hth : 0 < th).
Hypothesis (HdivW : width image mod tw = 0) (HdivH : height image mod th = 0).

Local Abbreviation cols := (width image / tw).
Local Abbreviation rows := (height image / th).

Lemma grid_bounds :
  0 < cols ∧ 0 < rows ∧ cols * tw = width image ∧ rows * th = height image
  ∧ rows * cols ≤ 2 ^ 53 ∧ width image ≤ 2 ^ 53 ∧ height image ≤ 2 ^ 53.
Proof using Hwf Htw Hth HdivW HdivH.
  destruct Hwf as (HW & HH & Hpix).
  destruct (grid_size image tw th ltac:(lia) ltac:(lia) HdivW HdivH) as [Hcw Hrh].
  assert (0 < cols) by nia. assert (0 < rows) by nia.
  repeat split; try done; nia.
Qed.

Lemma derived_grid :
  true_div (width image) tw = Ok (Fint cols)
  ∧ true_div (height image) th = Ok (Fint rows).
Proof using Hwf Htw Hth HdivW HdivH.
  pose proof grid_bounds as (? & ? & ? & ? & ? & ? & ?).
  split; apply true_div_exact; try done; try lia; unfold float_exact.
  - nia.
  - nia.
Qed.

(** The blank canvas the joiner allocates for the tiles of [image]. *)
Local Abbreviation blank :=
  (mkImage (mode image) (width image) (height image) (λ _ _, 0)).

(** The splitter yields the [rows * cols] tiles of the grid, all of the
    tile size, and on them the joiner allocates a canvas of the size of
    [image] and enters its loop. *)
Lemma split_tiles :
  ∃ parts,
    split_image_with_tile image (tw, th) = Ok parts
    ∧ length parts = Z.to_nat (rows * cols)
    ∧ (∀ i, 0 ≤ i < rows * cols →
         parts !! Z.to_nat i = Some (tile image tw th (i mod cols) (i / cols)))
    ∧ Forall (λ part, width part = tw ∧ height part = th) parts
    ∧ ∀ ordering,
        join_parts parts ordering (Fint rows) (Fint cols) (mode image)
        = join_loop parts (Fint cols) tw th 0 ordering blank.
Proof using Hwf Htw Hth HdivW HdivH.
  pose proof grid_bounds as (Hc & Hr & Hcw & Hrh & Hn & HW & HH).
  destruct Hwf as (HWpos & HHpos & _).
  destruct (split_image_with_tile_spec image tw th ltac:(lia) ltac:(lia) Htw Hth
              HdivW HdivH) as (parts & Hsplit & Hlenp & Hlookup).
  exists parts. repeat split; try done.
  - apply Forall_lookup. intros i part Hi.
    pose proof (lookup_lt_Some _ _ _ Hi) as Hlt.
    rewrite <- (Nat2Z.id i), Hlookup in Hi by lia.
    injection Hi as <-. cbn. lia.
  - intros ordering.
    assert (py_getitem parts 0 = Ok (tile image tw th (0 mod cols) (0 / cols))) as Hfirst.
    { apply py_getitem_nonneg; [lia|]. apply Hlookup. nia. }
    unfold join_parts. rewrite Hfirst, bind_Ok.
    replace (width (tile image tw th (0 mod cols) (0 / cols))) with tw by (cbn; lia).
    replace (height (tile image tw th (0 mod cols) (0 / cols))) with th by (cbn; lia).
    rewrite !float_of_int_exact by (unfold float_exact; nia). run.
    rewrite float_mul_exact by (unfold float_exact; nia). run.
    cbn [int_of_float]. run.
    rewrite float_mul_exact by (unfold float_exact; nia). run.
    cbn [int_of_float]. run. rewrite Hcw, Hrh.
    unfold Image_new. cbn [fst snd].
    destruct (Z.ltb_spec (width image) 0); [lia|].
    destruct (Z.ltb_spec (height image) 0); [lia|].
    cbn [orb]. by run.
Qed.

(** The joiner on the tiles of the splitter, for an ordering of at most
    [2^53] values that index the tile sequence. *)
Lemma join_split_spec (ordering : list Z) :
  Z.of_nat (length ordering) ≤ 2 ^ 53 →
  Forall (λ v, - (rows * cols) ≤ v < rows * cols) ordering →
  ∃ parts out,
    split_image_with_tile image (tw, th) = Ok parts
    ∧ length parts = Z.to_nat (rows * cols)
    ∧ (∀ i, 0 ≤ i < rows * cols →
         parts !! Z.to_nat i = Some (tile image tw th (i mod cols) (i / cols)))
    ∧ join_parts parts ordering (Fint rows) (Fint cols) (mode image) = Ok out
    ∧ mode out = mode image
    ∧ width out = width image
    ∧ height out = height image
    ∧ (∀ x y,
         (∀ k, (k < length ordering)%nat → ¬ in_cell cols tw th (Z.of_nat k) x y) →
         getpixel out x y = 0)
    ∧ (∀ (k : nat) v part x y,
         ordering !! k = Some v → py_getitem parts v = Ok part →
         in_cell cols tw th (Z.of_nat k) x y →
         getpixel out x y
         = getpixel part (x - Z.of_nat k mod cols * tw) (y - Z.of_nat k / cols * th)).
Proof using Hwf Htw Hth HdivW HdivH.
  intros Hlen Hrange.
  pose proof grid_bounds as (Hc & Hr & Hcw & Hrh & Hn & HW & HH).
  destruct split_tiles as (parts & Hsplit & Hlenp & Hlookup & Hsize & Hjoin).
  destruct (join_loop_spec parts cols tw th Hc Htw Hth Hsize ordering 0 blank)
    as (out & Hout & Hmode & Hwidth & Hheight & Hrest & Hcells).
  { lia. }
  { lia. }
  { rewrite Hlenp, Z2Nat.id by nia. done. }
  exists parts, out. rewrite Hjoin. repeat split; done.
Qed.

(** The joiner on the tiles of the splitter, for an ordering of at most
    [2^53] values one of which does not index the tile sequence. *)
Lemma join_split_index_error (ordering : list Z) :
  Z.of_nat (length ordering) ≤ 2 ^ 53 →
  Exists (λ v, v < - (rows * cols) ∨ rows * cols ≤ v) ordering →
  ∃ parts,
    split_image_with_tile image (tw, th) = Ok parts
    ∧ Z.of_nat (length parts) = rows * cols
    ∧ join_parts parts ordering (Fint rows) (Fint cols) (mode image) = Err IndexError.
Proof using Hwf Htw Hth HdivW HdivH.
  intros Hlen Hbad.
  pose proof grid_bounds as (Hc & Hr & Hcw & Hrh & Hn & HW & HH).
  destruct split_tiles as (parts & Hsplit & Hlenp & Hlookup & Hsize & Hjoin).
  exists parts. rewrite Hjoin. repeat split; [done|nia|].
  apply join_loop_index_error; [done|lia|lia|].
  rewrite Hlenp, Z2Nat.id by nia. done.
Qed.

(** A pixel of a tile, read at the place of the tile in the image. *)
Lemma tile_getpixel (col row x y : Z) :
  0 ≤ x < width image → 0 ≤ y < height image →
  getpixel (tile image tw th col row) (x - col * tw) (y - row * th)
  = getpixel image x y.
Proof.
  intros Hx Hy. cbn.
  replace (col * tw + (x - col * tw)) with x by lia.
  replace (row * th + (y - row * th)) with y by lia.
  destruct (Z.leb_spec 0 x), (Z.ltb_spec x (width image)),
    (Z.leb_spec 0 y), (Z.ltb_spec y (height image)); cbn; done || lia.
Qed.

End split_join.

(** ** The claims on splitting and joining *)

(** The grid cell of a pixel. *)
Lemma pixel_cell (cols tw th x y : Z) :
  0 < cols → 0 < tw → 0 < th → 0 ≤ x < cols * tw → 0 ≤ y →
  let idx := y / th * cols + x / tw in
  0 ≤ idx ∧ idx mod cols = x / tw ∧ idx / cols = y / th
  ∧ in_cell cols tw th idx x y.
Proof.
  intros Hc Htw Hth Hx Hy idx.
  assert (0 ≤ x / tw) by (apply Z.div_pos; lia).
  assert (x / tw < cols) by (apply Z.div_lt_upper_bound; lia).
  assert (0 ≤ y / th) by (apply Z.div_pos; lia).
  assert (idx mod cols = x / tw) as Hm
    by (unfold idx; rewrite Z.add_comm, Z.mod_add, (Z.mod_small (x / tw) cols); lia).
  assert (idx / cols = y / th) as Hd
    by (unfold idx; rewrite Z.div_add_l, (Z.div_small (x / tw) cols); lia).
  repeat split; try done; try (unfold idx; nia).
  all: rewrite ?Hm, ?Hd.
  - pose proof (Z.div_mod x tw ltac:(lia)). pose proof (Z.mod_pos_bound x tw Htw). lia.
  - pose proof (Z.div_mod x tw ltac:(lia)). pose proof (Z.mod_pos_bound x tw Htw). lia.
  - pose proof (Z.div_mod y th ltac:(lia)). pose proof (Z.mod_pos_bound y th Hth). lia.
  - pose proof (Z.div_mod y th ltac:(lia)). pose proof (Z.mod_pos_bound y th Hth). lia.
Qed.

(** C1. For an image whose width and height the tile size divides
    evenly, the splitter succeeds, and the joiner, given the tiles, the
    identity ordering over all of them and the derived [rows] and [cols],
    returns an image of the same mode and size whose every pixel is that
    of the original. *)
Theorem split_join_identity (image : Image) (tw th : Z) :
  wf_image image → 0 < tw → 0 < th →
  width image mod tw = 0 → height image mod th = 0 →
  ∃ parts cols rows out,
    split_image_with_tile image (tw, th) = Ok parts
    ∧ true_div (width image) tw = Ok cols
    ∧ true_div (height image) th = Ok rows
    ∧ join_parts parts (seqZ 0 (Z.of_nat (length parts))) rows cols (mode image) = Ok out
    ∧ mode out = mode image
    ∧ width out = width image
    ∧ height out = height image
    ∧ ∀ x y, 0 ≤ x < width image → 0 ≤ y < height image →
        getpixel out x y = getpixel image x y.
Proof.
  intros Hwf Htw Hth HdivW HdivH.
  pose proof (grid_bounds image tw th Hwf Htw Hth HdivW HdivH)
    as (Hc & Hr & Hcw & Hrh & Hn & HW & HH).
  destruct (derived_grid image tw th Hwf Htw Hth HdivW HdivH) as [Hcols Hrows].
  set (cols := width image / tw) in *. set (rows := height image / th) in *.
  destruct (join_split_spec image tw th Hwf Htw Hth HdivW HdivH (seqZ 0 (rows * cols)))
    as (parts & out & Hsplit & Hlenp & Hlookup & Hjoin & Hmode & Hwidth & Hheight
        & _ & Hcells).
  { rewrite length_seqZ. fold rows cols. lia. }
  { apply Forall_forall. intros v Hv. apply elem_of_seqZ in Hv. fold rows cols. lia. }
  fold rows cols in Hlenp, Hlookup, Hjoin, Hcells.
  exists parts, (Fint cols), (Fint rows), out.
  rewrite Hlenp, Z2Nat.id by nia. repeat split; try done.
  intros x y Hx Hy.
  destruct (pixel_cell cols tw th x y Hc Htw Hth ltac:(lia) ltac:(lia))
    as (Hidx & Hm & Hd & Hcell).
  set (idx := y / th * cols + x / tw) in *.
  assert (y / th < rows) by (apply Z.div_lt_upper_bound; lia).
  assert (0 ≤ x / tw < cols)
    by (split; [apply Z.div_pos|apply Z.div_lt_upper_bound]; lia).
  assert (idx < rows * cols) by (unfold idx; nia).
  rewrite (Hcells (Z.to_nat idx) idx (tile image tw th (x / tw) (y / th)) x y).
  - rewrite Z2Nat.id, Hm, Hd by done. by apply tile_getpixel.
  - rewrite lookup_seqZ_lt by lia. f_equal. lia.
  - apply py_getitem_nonneg; [done|]. rewrite Hlookup by lia. by rewrite Hm, Hd.
  - by rewrite Z2Nat.id.
Qed.

Lemma split_join_identity_witness :
  ∃ parts cols rows out,
    split_image_with_tile sample (2, 2) = Ok parts
    ∧ true_div (width sample) 2 = Ok cols
    ∧ true_div (height sample) 2 = Ok rows
    ∧ join_parts parts (seqZ 0 (Z.of_nat (length parts))) rows cols (mode sample) = Ok out
    ∧ mode out = mode sample
    ∧ width out = width sample
    ∧ height out = height sample
    ∧ ∀ x y, 0 ≤ x < width sample → 0 ≤ y < height sample →
        getpixel out x y = getpixel sample x y.
Proof.
  apply (split_join_identity sample 2 2).
  - unfold wf_image. vm_compute. repeat split; discriminate.
  - lia.
  - lia.
  - reflexivity.
  - reflexivity.
Defined.



(** C7. On any 300x200 image with tile size (100, 50) the grid has 3
    columns and 4 rows, 12 tiles; the validator accepts the ordering
    [0; 1; 2; 3; 4; 5]; the joiner returns a 300x200 canvas in which each
    of the first six cells holds the tile the ordering names, and every
    pixel of the six cells of the two lower rows is blank. *)
Theorem short_ordering_fills_half (m : string) (f : Z → Z → Z) :
  valid_input (300, 200) (100, 50) [0; 1; 2; 3; 4; 5] = Ok true
  ∧ true_div 300 100 = Ok (Fint 3)
  ∧ true_div 200 50 = Ok (Fint 4)
  ∧ ∃ parts out,
      split_image_with_tile (mkImage m 300 200 f) (100, 50) = Ok parts
      ∧ length parts = 12%nat
      ∧ join_parts parts [0; 1; 2; 3; 4; 5] (Fint 4) (Fint 3) m = Ok out
      ∧ width out = 300 ∧ height out = 200 ∧ mode out = m
      ∧ (∀ idx part dx dy,
           0 ≤ idx < 6 → parts !! Z.to_nat idx = Some part →
           0 ≤ dx < 100 → 0 ≤ dy < 50 →
           getpixel out (idx mod 3 * 100 + dx) (idx / 3 * 50 + dy)
           = getpixel part dx dy)
      ∧ (∀ idx dx dy,
           6 ≤ idx < 12 → 0 ≤ dx < 100 → 0 ≤ dy < 50 →
           getpixel out (idx mod 3 * 100 + dx) (idx / 3 * 50 + dy) = 0).
Proof.
  split; [vm_compute; reflexivity|].
  split; [vm_compute; reflexivity|].
  split; [vm_compute; reflexivity|].
  set (image := mkImage m 300 200 f).
  assert (wf_image image) as Hwf
    by (unfold wf_image; vm_compute; repeat split; discriminate).
  destruct (join_split_spec image 100 50 Hwf ltac:(lia) ltac:(lia) eq_refl eq_refl
              [0; 1; 2; 3; 4; 5])
    as (parts & out & Hsplit & Hlenp & Hlookup & Hjoin & Hmode & Hwidth & Hheight
        & Hrest & Hcells).
  { vm_compute. discriminate. }
  { repeat constructor; vm_compute; discriminate. }
  change (width image / 100) with 3 in *. change (height image / 50) with 4 in *.
  change (mode image) with m in *.
  exists parts, out. repeat split; try done.
  - intros idx part dx dy Hidx Hpart Hdx Hdy.
    pose proof (Z.mod_pos_bound idx 3 ltac:(lia)).
    rewrite (Hcells (Z.to_nat idx) idx part).
    + rewrite Z2Nat.id by lia. f_equal; lia.
    + change [0; 1; 2; 3; 4; 5] with (seqZ 0 6).
      rewrite lookup_seqZ_lt by lia. f_equal. lia.
    + apply py_getitem_nonneg; [lia|done].
    + rewrite Z2Nat.id by lia. unfold in_cell. lia.
  - intros idx dx dy Hidx Hdx Hdy. apply Hrest.
    intros k Hk [_ Hy]. cbn [length] in Hk.
    assert (Z.of_nat k / 3 < 2) by (apply Z.div_lt_upper_bound; lia).
    assert (2 ≤ idx / 3) by (apply Z.div_le_lower_bound; lia).
    nia.
Qed.

(** ** The orchestrator *)

(** C9. On a valid input (positive tile size, validator true, every
    ordering value a tile number) the joiner, called as the orchestrator
    calls it, with the tiles of the splitter, the derived [rows] and
    [cols] and the mode of the input, returns an image with the pixel
    width, the pixel height and the colour mode of the input image: the
    canvas size [(cols * tile_width, rows * tile_height)] is the size of
    the input. *)
Theorem join_parts_keeps_size (image : Image) (tw th : Z) (ordering : list Z) :
  wf_image image → 0 < tw → 0 < th →
  valid_input (width image, height image) (tw, th) ordering = Ok true →
  Forall (λ v, 0 ≤ v < height image / th * (width image / tw)) ordering →
  ∃ parts cols rows out,
    split_image_with_tile image (tw, th) = Ok parts
    ∧ true_div (width image) tw = Ok cols
    ∧ true_div (height image) th = Ok rows
    ∧ join_parts parts ordering rows cols (mode image) = Ok out
    ∧ width out = width image / tw * tw
    ∧ height out = height image / th * th
    ∧ width out = width image
    ∧ height out = height image
    ∧ mode out = mode image.
Proof.
  intros Hwf Htw Hth Hvalid Hrange.
  apply valid_input_true_inv in Hvalid as (Hnd & Hne & _ & _ & HdivW & HdivH).
  pose proof (grid_bounds image tw th Hwf Htw Hth HdivW HdivH)
    as (Hc & Hr & Hcw & Hrh & Hn & HW & HH).
  destruct (derived_grid image tw th Hwf Htw Hth HdivW HdivH) as [Hcols Hrows].
  pose proof (ordering_length_le ordering (height image / th * (width image / tw))
                ltac:(nia) Hnd Hrange) as Hlen.
  destruct (join_split_spec image tw th Hwf Htw Hth HdivW HdivH ordering)
    as (parts & out & Hsplit & _ & _ & Hjoin & Hmode & Hwidth & Hheight & _ & _).
  { lia. }
  { eapply Forall_impl; [exact Hrange|]. intros v Hv. cbn beta in Hv. lia. }
  exists parts, (Fint (width image / tw)), (Fint (height image / th)), out.
  repeat split; try done; congruence.
Qed.

Lemma join_parts_keeps_size_witness :
  ∃ parts cols rows out,
    split_image_with_tile sample (2, 2) = Ok parts
    ∧ true_div (width sample) 2 = Ok cols
    ∧ true_div (height sample) 2 = Ok rows
    ∧ join_parts parts [3; 2; 1; 0] rows cols (mode sample) = Ok out
    ∧ width out = width sample / 2 * 2
    ∧ height out = height sample / 2 * 2
    ∧ width out = width sample
    ∧ height out = height sample
    ∧ mode out = mode sample.
Proof.
  apply (join_parts_keeps_size sample 2 2 [3; 2; 1; 0]).
  - unfold wf_image. vm_compute. repeat split; discriminate.
  - lia.
  - lia.
  - vm_compute. reflexivity.
  - repeat constructor; vm_compute; discriminate.
Defined.

(** X11. On an opened image, with non-zero tile dimensions, a false
    validator makes the orchestrator raise [ValueError] with the fixed
    message and write nothing. *)
Lemma rearrange_tiles_invalid (fs : gmap string Image)
    (image_path out_path : string) (image : Image) (tw th : Z) (ordering : list Z) :
  fs !! image_path = Some image →
  wf_image image → tw ≠ 0 → th ≠ 0 →
  valid_input (width image, height image) (tw, th) ordering = Ok false →
  rearrange_tiles fs image_path (tw, th) ordering out_path
  = (Err (ValueError "The tile size or ordering are not valid for the given image"), fs).
Proof.
  intros Hfs (HW & HH & Hpix) Htw Hth Hvalid.
  assert (∀ a b, 0 < a ≤ 2 ^ 53 → b ≠ 0 → ∃ q, true_div a b = Ok q) as Hdiv.
  { intros a b Ha Hb. unfold true_div.
    destruct (Z.eqb_spec b 0) as [|_]; [done|].
    assert (2 ^ 53 < 2 ^ 1024 - 2 ^ 970) by (vm_compute; reflexivity).
    destruct (Z.leb_spec ((2 ^ 1024 - 2 ^ 970) * Z.abs b) (Z.abs a)); [nia|].
    destruct (a mod b =? 0); eauto. }
  destruct (Hdiv (width image) tw ltac:(nia) Htw) as [cols Hcols].
  destruct (Hdiv (height image) th ltac:(nia) Hth) as [rows Hrows].
  unfold rearrange_tiles, Image_open. rewrite Hfs. run. cbn [fst snd].
  rewrite Hcols, Hrows. run. rewrite Hvalid. run. reflexivity.
Qed.

(** C6. The orchestrator does not always answer a false validator with
    the invalid-input error: it divides the image size by the tile size
    before it validates.  With the tile size (0, 2) and the ordering
    [0; 0] the validator returns false (the value 0 repeats), and with the
    tile size (3, 0) and the ordering [0] it returns false (3 does not
    divide 4); on both the orchestrator raises [ZeroDivisionError].
    Nothing is written. *)
Theorem rearrange_tiles_zero_tile_width :
  valid_input (width sample, height sample) (0, 2) [0; 0] = Ok false
  ∧ rearrange_tiles {[ "in.png" := sample ]} "in.png" (0, 2) [0; 0] "out.png"
    = (Err ZeroDivisionError, {[ "in.png" := sample ]})
  ∧ valid_input (width sample, height sample) (3, 0) [0] = Ok false
  ∧ rearrange_tiles {[ "in.png" := sample ]} "in.png" (3, 0) [0] "out.png"
    = (Err ZeroDivisionError, {[ "in.png" := sample ]}).
Proof. repeat split; reflexivity. Qed.

(** ** Index errors in the joiner *)

(** C8 (as stated).  A value outside [0, total) need not fail: on the 4x4
    sample with 2x2 tiles the ordering [-1; 0] passes validation, -1 is
    outside [0, 4), and the joiner returns an image whose first cell holds
    the last tile. *)
Lemma negative_index_wraps :
  valid_input (width sample, height sample) (2, 2) [-1; 0] = Ok true
  ∧ ¬ (0 ≤ -1 < 4)
  ∧ ∃ parts out,
      split_image_with_tile sample (2, 2) = Ok parts
      ∧ length parts = 4%nat
      ∧ join_parts parts [-1; 0] (Fint 2) (Fint 2) (mode sample) = Ok out
      ∧ join_parts parts [-1; 0] (Fint 2) (Fint 2) (mode sample) ≠ Err IndexError
      ∧ pixels 4 4 out
        = [[22; 23; 0; 1]; [32; 33; 10; 11]; [0; 0; 0; 0]; [0; 0; 0; 0]].
Proof.
  split; [vm_compute; reflexivity|]. split; [lia|].
  eexists _, _. split; [reflexivity|]. split; [reflexivity|].
  split; [reflexivity|]. split; [discriminate|]. vm_compute. reflexivity.
Qed.

(** C8 (amended).  If an ordering of at most [2^53] values passes
    validation and contains a value [v] with [v >= total] or
    [v < -total], [total] being the number of tiles, then the splitter
    succeeds and the joiner raises [IndexError]. *)
Theorem join_parts_index_error (image : Image) (tw th : Z) (ordering : list Z) (v : Z) :
  wf_image image → 0 < tw → 0 < th →
  valid_input (width image, height image) (tw, th) ordering = Ok true →
  Z.of_nat (length ordering) ≤ 2 ^ 53 →
  v ∈ ordering →
  v < - (height image / th * (width image / tw))
  ∨ height image / th * (width image / tw) ≤ v →
  ∃ parts cols rows,
    split_image_with_tile image (tw, th) = Ok parts
    ∧ Z.of_nat (length parts) = height image / th * (width image / tw)
    ∧ true_div (width image) tw = Ok cols
    ∧ true_div (height image) th = Ok rows
    ∧ join_parts parts ordering rows cols (mode image) = Err IndexError.
Proof.
  intros Hwf Htw Hth Hvalid Hlen Hin Hv.
  apply valid_input_true_inv in Hvalid as (_ & _ & _ & _ & HdivW & HdivH).
  destruct (derived_grid image tw th Hwf Htw Hth HdivW HdivH) as [Hcols Hrows].
  destruct (join_split_index_error image tw th Hwf Htw Hth HdivW HdivH ordering Hlen)
    as (parts & Hsplit & Hlenp & Hjoin).
  { apply Exists_exists. by exists v. }
  by exists parts, (Fint (width image / tw)), (Fint (height image / th)).
Qed.

Lemma join_parts_index_error_witness :
  ∃ parts cols rows,
    split_image_with_tile sample (2, 2) = Ok parts
    ∧ Z.of_nat (length parts) = height sample / 2 * (width sample / 2)
    ∧ true_div (width sample) 2 = Ok cols
    ∧ true_div (height sample) 2 = Ok rows
    ∧ join_parts parts [0; 4] rows cols (mode sample) = Err IndexError.
Proof.
  apply (join_parts_index_error sample 2 2 [0; 4] 4).
  - unfold wf_image. vm_compute. repeat split; discriminate.
  - lia.
  - lia.
  - vm_compute. reflexivity.
  - vm_compute. discriminate.
  - apply (bool_decide_unpack _). vm_compute. exact I.
  - right. vm_compute. discriminate.
Defined.

(** C10. On the empty tile sequence the joiner raises [IndexError],
    whatever the ordering, [rows], [cols] and the mode are: reading the
    size of the first tile precedes the arithmetic on [rows] and [cols]
    and the allocation of the canvas.  Hence a call that returns an image
    was given a non-empty tile sequence. *)
Theorem join_parts_empty (order : list Z) (rows cols : pyfloat) (image_mode : string) :
  join_parts [] order rows cols image_mode = Err IndexError
  ∧ ∀ parts out,
      join_parts parts order rows cols image_mode = Ok out → parts ≠ [].
Proof.
  assert (join_parts [] order rows cols image_mode = Err IndexError) as Hnil
    by (unfold join_parts; rewrite py_getitem_nil; apply bind_Err).
  split; [done|]. intros parts out Hout ->. by rewrite Hnil in Hout.
Qed.

Lemma join_parts_empty_witness :
  join_parts [] [0] (Fint 1) (Fint 1) "L" = Err IndexError
  ∧ [sample] ≠ [].
Proof.
  destruct (join_parts_empty [0] (Fint 1) (Fint 1) "L") as [Hnil Hne].
  split; [exact Hnil|].
  apply (Hne [sample] (paste (mkImage "L" 4 4 (λ _ _, 0)) sample (0, 0))).
  vm_compute. reflexivity.
Defined.

(** * Further properties of the validator *)

(** X1. A non-zero tile width that does not divide the image width makes
    the validator return false for every ordering and every tile height,
    a zero tile height included (the [and] on line 21 does not evaluate
    its right operand); so does a non-zero tile height that does not
    divide the image height, when the tile width is non-zero. *)
Theorem valid_input_rejects_indivisible (W H tw th : Z) (ordering : list Z) :
  (tw ≠ 0 ∧ W mod tw ≠ 0) ∨ (tw ≠ 0 ∧ th ≠ 0 ∧ H mod th ≠ 0) →
  valid_input (W, H) (tw, th) ordering = Ok false.
Proof.
  intros Hcase.
  destruct (decide (NoDup ordering)) as [Hnd|Hnd]; [|by apply valid_input_dup].
  rewrite valid_input_NoDup by done. cbn [fst snd]. unfold int_mod.
  assert (tw ≠ 0) as Htw by tauto.
  destruct (Z.eqb_spec tw 0) as [|_]; [done|]. run.
  destruct (Z.eqb_spec (W mod tw) 0) as [HW|HW]; cbn [negb]; [|done].
  destruct Hcase as [[_ ?]|(_ & Hth & HH)]; [done|].
  destruct (Z.eqb_spec th 0) as [|_]; [done|]. run.
  destruct (Z.eqb_spec (H mod th) 0); done.
Qed.

Lemma valid_input_rejects_indivisible_witness :
  valid_input (512, 512) (100, 0) [] = Ok false
  ∧ valid_input (512, 512) (256, 100) [0; 1] = Ok false.
Proof.
  split.
  - apply (valid_input_rejects_indivisible 512 512 100 0 []).
    left. split; [lia|vm_compute; discriminate].
  - apply (valid_input_rejects_indivisible 512 512 256 100 [0; 1]).
    right. split; [lia|]. split; [lia|vm_compute; discriminate].
Defined.

(** X2. An input the validator accepts has an ordering without repeated
    values and with at least one value, non-zero tile dimensions that
    divide the image dimensions, and quotients that fit a float: both
    divisions of the orchestrator succeed on it. *)
Theorem valid_input_sound (W H tw th : Z) (ordering : list Z) :
  valid_input (W, H) (tw, th) ordering = Ok true →
  NoDup ordering ∧ ordering ≠ [] ∧ tw ≠ 0 ∧ th ≠ 0
  ∧ W mod tw = 0 ∧ H mod th = 0
  ∧ ∃ cols rows, true_div W tw = Ok (Fint cols) ∧ true_div H th = Ok (Fint rows).
Proof.
  intros Hv.
  destruct (valid_input_true_inv W H tw th ordering Hv)
    as (Hnd & Hne & Htw & Hth & HW & HH).
  repeat split; try done.
  rewrite valid_input_NoDup in Hv by done. cbn [fst snd] in Hv.
  unfold int_mod in Hv.
  destruct (Z.eqb_spec tw 0) as [|_]; [done|].
  destruct (Z.eqb_spec th 0) as [|_]; [done|].
  rewrite !bind_Ok, HW, HH in Hv. cbn [negb Z.eqb] in Hv.
  unfold true_div in Hv |- *.
  destruct (Z.eqb_spec tw 0) as [|_]; [done|].
  destruct (Z.eqb_spec th 0) as [|_]; [done|].
  rewrite HW, HH, Z.eqb_refl in Hv |- *.
  destruct (_ <=? Z.abs W); [done|]. rewrite bind_Ok in Hv.
  destruct (_ <=? Z.abs H); [done|]. eauto.
Qed.

Lemma valid_input_sound_witness :
  NoDup [3; 2; 1; 0] ∧ [3; 2; 1; 0] ≠ [] ∧ 256 ≠ 0 ∧ 256 ≠ 0
  ∧ 512 mod 256 = 0 ∧ 512 mod 256 = 0
  ∧ ∃ cols rows, true_div 512 256 = Ok (Fint cols) ∧ true_div 512 256 = Ok (Fint rows).
Proof.
  apply (valid_input_sound 512 512 256 256 [3; 2; 1; 0]).
  vm_compute. reflexivity.
Defined.

(** X3. The validator looks at the ordering only through its length and
    through whether a value repeats: two orderings of the same length that
    both have, or both lack, a repeated value get the same answer (or the
    same exception), whatever their values are.  In particular no value is
    checked against the number of tiles. *)
Theorem valid_input_ignores_values (image_size tile_size : Z * Z)
    (ordering1 ordering2 : list Z) :
  length ordering1 = length ordering2 →
  (NoDup ordering1 ↔ NoDup ordering2) →
  valid_input image_size tile_size ordering1
  = valid_input image_size tile_size ordering2.
Proof.
  intros Hlen Hnd.
  destruct (decide (NoDup ordering1)) as [H1|H1].
  - rewrite !valid_input_NoDup by tauto. by rewrite Hlen.
  - rewrite !valid_input_dup by tauto. done.
Qed.

Lemma valid_input_ignores_values_witness :
  valid_input (512, 512) (256, 256) [3; 2; 1; 0]
  = valid_input (512, 512) (256, 256) [400; -7; 12; 99].
Proof.
  apply (valid_input_ignores_values (512, 512) (256, 256)
           [3; 2; 1; 0] [400; -7; 12; 99]).
  - reflexivity.
  - split; intros _; apply (bool_decide_unpack _); vm_compute; exact I.
Defined.

(** X5. On a positive image size of at most [2^53] pixels and a positive
    tile size, an accepted ordering (of a length a float holds exactly) is
    never longer than the number of tiles: its length divides that
    number. *)
Theorem valid_input_length_le (W H tw th : Z) (ordering : list Z) :
  0 < W → 0 < H → W * H ≤ 2 ^ 53 → 0 < tw → 0 < th →
  float_exact (Z.of_nat (length ordering)) →
  valid_input (W, H) (tw, th) ordering = Ok true →
  (Z.of_nat (length ordering) | H / th * (W / tw))
  ∧ 0 < Z.of_nat (length ordering) ≤ H / th * (W / tw).
Proof.
  intros HW HH Hpix Htw Hth Hn Hv.
  destruct (valid_input_true_inv W H tw th ordering Hv)
    as (Hnd & Hne & _ & _ & HdW & HdH).
  assert (W = tw * (W / tw)) as HWq by (apply Z.div_exact; lia).
  assert (H = th * (H / th)) as HHq by (apply Z.div_exact; lia).
  assert (0 < W / tw) by nia. assert (0 < H / th) by nia.
  assert (W / tw ≤ W) by nia. assert (H / th ≤ H) by nia.
  rewrite valid_input_exact in Hv
    by (done || lia || unfold float_exact; nia).
  injection Hv as Hv. apply bool_decide_eq_true_1 in Hv as (_ & _ & Hmod).
  assert (0 < Z.of_nat (length ordering)) as Hpos
    by (destruct ordering; cbn in *; [done|lia]).
  assert (Z.of_nat (length ordering) | H / th * (W / tw)) as Hdiv.
  { rewrite Z.mul_comm. apply Z.mod_divide; [lia|done]. }
  split; [done|]. split; [done|]. apply Z.divide_pos_le; [nia|done].
Qed.

Lemma valid_input_length_le_witness :
  (Z.of_nat (length [0; 1; 2; 3; 4; 5]) | 200 / 50 * (300 / 100))
  ∧ 0 < Z.of_nat (length [0; 1; 2; 3; 4; 5]) ≤ 200 / 50 * (300 / 100).
Proof.
  apply (valid_input_length_le 300 200 100 50 [0; 1; 2; 3; 4; 5]).
  - lia.
  - lia.
  - vm_compute. discriminate.
  - lia.
  - lia.
  - unfold float_exact. vm_compute. discriminate.
  - vm_compute. reflexivity.
Defined.

Lemma valid_input_returns_witness :
  ∃ b : bool, valid_input (512, 512) (100, 256) [3; 2; 1; 0] = Ok b.
Proof.
  apply (valid_input_returns 512 512 100 256 [3; 2; 1; 0]).
  - lia.
  - lia.
  - discriminate.
  - vm_compute. reflexivity.
  - vm_compute. reflexivity.
  - unfold float_exact. vm_compute. discriminate.
Defined.

(** * Further properties of the splitter *)

Lemma py_range_ceil (stop step : Z) :
  0 ≤ stop → 0 < step →
  py_range 0 stop step = Ok ((λ k, k * step) <$> seqZ 0 ((stop + step - 1) / step)).
Proof.
  intros Hstop Hstep. unfold py_range.
  destruct (Z.eqb_spec step 0) as [|_]; [lia|].
  destruct (Z.ltb_spec 0 step) as [_|]; [|lia].
  f_equal. f_equal.
  destruct (Z.ltb_spec 0 stop) as [Hpos|Hz].
  - f_equal. f_equal. lia.
  - assert (stop = 0) as -> by lia. f_equal. symmetry. apply Z.div_small. lia.
Qed.

Lemma py_range_backwards (stop step : Z) :
  0 ≤ stop → step < 0 → py_range 0 stop step = Ok [].
Proof.
  intros Hstop Hstep. unfold py_range.
  destruct (Z.eqb_spec step 0) as [|_]; [lia|].
  destruct (Z.ltb_spec 0 step) as [|_]; [lia|].
  destruct (Z.ltb_spec stop 0) as [|_]; [lia|]. reflexivity.
Qed.

Section splitter_any_size.
Variables (image : Image) (tw th : Z).
Hypothesis (HW : 0 ≤ width image) (HH : 0 ≤ height image).
Hypothesis (Htw : 0 < tw) (Hth : 0 < th).

Local Abbreviation ncols := ((width image + tw - 1) / tw).
Local Abbreviation nrows := ((height image + th - 1) / th).

Lemma ceil_grid :
  0 ≤ ncols ∧ 0 ≤ nrows
  ∧ width image ≤ ncols * tw < width image + tw
  ∧ height image ≤ nrows * th < height image + th.
Proof using HW HH Htw Hth.
  pose proof (Z.div_mod (width image + tw - 1) tw ltac:(lia)).
  pose proof (Z.mod_pos_bound (width image + tw - 1) tw Htw).
  pose proof (Z.div_mod (height image + th - 1) th ltac:(lia)).
  pose proof (Z.mod_pos_bound (height image + th - 1) th Hth).
  repeat split; try (apply Z.div_pos; lia); lia.
Qed.

(** X6. Without any divisibility, on a positive tile size the splitter
    returns [ceil(H/th) * ceil(W/tw)] tiles in row-major order, every one
    of the mode of the image and of the full tile size; a tile pixel is
    the image pixel at its place, and blank where the tile hangs over the
    right or the lower edge. *)
Theorem split_image_with_tile_any_size :
  ∃ parts,
    split_image_with_tile image (tw, th) = Ok parts
    ∧ length parts = Z.to_nat (nrows * ncols)
    ∧ ∀ i, 0 ≤ i < nrows * ncols →
        ∃ part,
          parts !! Z.to_nat i = Some part
          ∧ mode part = mode image ∧ width part = tw ∧ height part = th
          ∧ ∀ dx dy, 0 ≤ dx < tw → 0 ≤ dy < th →
              getpixel part dx dy
              = if (i mod ncols * tw + dx <? width image)
                   && (i / ncols * th + dy <? height image)
                then getpixel image (i mod ncols * tw + dx) (i / ncols * th + dy)
                else 0.
Proof using HW HH Htw Hth.
  pose proof ceil_grid as (Hc & Hr & HcW & HrH).
  eexists. split; [|split].
  - unfold split_image_with_tile.
    rewrite (py_range_ceil (height image) th) by done. rewrite bind_Ok.
    rewrite (split_rows_spec image tw th ((λ k, k * tw) <$> seqZ 0 ncols))
      by (by apply py_range_ceil).
    reflexivity.
  - cbn [app]. rewrite length_join, <- list_fmap_compose.
    rewrite (sum_list_fmap_same (Z.to_nat ncols)).
    + rewrite length_fmap, length_seqZ. lia.
    + apply Forall_forall. intros y _. cbn.
      by rewrite !length_fmap, length_seqZ.
  - intros i Hi. cbn [app].
    assert (0 < ncols) as Hcpos by nia.
    pose proof (Z.div_mod i ncols ltac:(lia)) as Hdm.
    pose proof (Z.mod_pos_bound i ncols Hcpos) as Hmb.
    assert (0 ≤ i / ncols) by (apply Z.div_pos; lia).
    assert (i / ncols < nrows) by (apply Z.div_lt_upper_bound; lia).
    exists (tile image tw th (i mod ncols) (i / ncols)). split.
    + replace (Z.to_nat i)
        with (Z.to_nat (i / ncols) * Z.to_nat ncols + Z.to_nat (i mod ncols))%nat by nia.
      apply (join_lookup_Some_same_length' (Z.to_nat ncols)).
      * apply Forall_fmap, Forall_forall. intros y _. cbn.
        by rewrite !length_fmap, length_seqZ.
      * lia.
      * eexists. split.
        -- rewrite !list_lookup_fmap, lookup_seqZ_lt by lia. reflexivity.
        -- rewrite !list_lookup_fmap, lookup_seqZ_lt by lia. cbn.
           unfold tile. rewrite !Z2Nat.id by lia. reflexivity.
    + cbn. repeat split; try lia.
      intros dx dy Hdx Hdy.
      destruct (Z.leb_spec 0 (i mod ncols * tw + dx)); [|nia].
      destruct (Z.leb_spec 0 (i / ncols * th + dy)); [|nia].
      cbn. by rewrite andb_true_r.
Qed.

End splitter_any_size.

Lemma split_image_with_tile_any_size_witness :
  ∃ parts,
    split_image_with_tile sample (3, 3) = Ok parts
    ∧ length parts = Z.to_nat ((height sample + 3 - 1) / 3 * ((width sample + 3 - 1) / 3))
    ∧ ∀ i, 0 ≤ i < (height sample + 3 - 1) / 3 * ((width sample + 3 - 1) / 3) →
        ∃ part,
          parts !! Z.to_nat i = Some part
          ∧ mode part = mode sample ∧ width part = 3 ∧ height part = 3
          ∧ ∀ dx dy, 0 ≤ dx < 3 → 0 ≤ dy < 3 →
              getpixel part dx dy
              = if (i mod ((width sample + 3 - 1) / 3) * 3 + dx <? width sample)
                   && (i / ((width sample + 3 - 1) / 3) * 3 + dy <? height sample)
                then getpixel sample (i mod ((width sample + 3 - 1) / 3) * 3 + dx)
                       (i / ((width sample + 3 - 1) / 3) * 3 + dy)
                else 0.
Proof.
  apply (split_image_with_tile_any_size sample 3 3).
  - vm_compute. discriminate.
  - vm_compute. discriminate.
  - lia.
  - lia.
Defined.

(** X7. Called on a zero tile height, or on a zero tile width with a
    positive tile height on an image of positive height, the splitter
    raises the [ValueError] of [range]. *)
Theorem split_image_with_tile_zero_tile (image : Image) (tw th : Z) :
  th = 0 ∨ (tw = 0 ∧ 0 < th ∧ 0 < height image) →
  split_image_with_tile image (tw, th)
  = Err (ValueError "range() arg 3 must not be zero").
Proof.
  intros [->|(-> & Hth & HH)]; [reflexivity|].
  unfold split_image_with_tile.
  rewrite py_range_ceil by lia. rewrite bind_Ok.
  assert (0 < (height image + th - 1) / th)
    by (apply Z.div_str_pos; lia).
  rewrite seqZ_cons by done. reflexivity.
Qed.

Lemma split_image_with_tile_zero_tile_witness :
  split_image_with_tile sample (0, 2)
  = Err (ValueError "range() arg 3 must not be zero").
Proof.
  apply (split_image_with_tile_zero_tile sample 0 2).
  right. split; [reflexivity|]. split; [lia|]. vm_compute. reflexivity.
Defined.

(** On an image of non-negative size a negative tile width or height
    gives no tile at all: the ranges are empty. *)
Lemma split_image_with_tile_negative (image : Image) (tw th : Z) :
  0 ≤ width image → 0 ≤ height image → tw ≠ 0 → th ≠ 0 →
  tw < 0 ∨ th < 0 →
  split_image_with_tile image (tw, th) = Ok [].
Proof.
  intros HW HH Htw Hth Hneg. unfold split_image_with_tile.
  destruct (decide (th < 0)) as [Hn|Hp].
  - by rewrite py_range_backwards.
  - assert (tw < 0) as Htwn by lia.
    rewrite py_range_ceil by lia. rewrite bind_Ok.
    rewrite (split_rows_spec image tw th []) by (by apply py_range_backwards).
    cbn [app]. f_equal.
    induction (_ <$> seqZ 0 _) as [|y ys IH]; [done|]. cbn. exact IH.
Qed.

(** * Further properties of the joiner *)

Lemma py_getitem_wrap {A} (l : list A) (v : Z) (a : A) :
  - Z.of_nat (length l) ≤ v < Z.of_nat (length l) →
  l !! Z.to_nat (if v <? 0 then v + Z.of_nat (length l) else v) = Some a →
  py_getitem l v = Ok a.
Proof.
  intros Hv Hl. unfold py_getitem. cbv zeta.
  set (j := if v <? 0 then v + Z.of_nat (length l) else v) in *.
  assert (0 ≤ j < Z.of_nat (length l)) as Hj
    by (unfold j; destruct (Z.ltb_spec v 0); lia).
  destruct (Z.ltb_spec j 0); [lia|].
  destruct (Z.leb_spec (Z.of_nat (length l)) j); [lia|]. cbn. by rewrite Hl.
Qed.

Section rearranged_cells.
Variables (image : Image) (tw th : Z).
Hypothesis Hwf : wf_image image.
Hypothesis (Htw : 0 < tw) (Hth : 0 < th).
Hypothesis (HdivW : width image mod tw = 0) (HdivH : height image mod th = 0).

Local Abbreviation cols := (width image / tw).
Local Abbreviation rows := (height image / th).

(** The joiner on the tiles of the splitter, cell by cell, in terms of
    the pixels of the image: the cell of position [k] shows the cell of
    the image that the value at [k] names, a negative value counting from
    the last tile. *)
Lemma join_split_cells (ordering : list Z) :
  Z.of_nat (length ordering) ≤ rows * cols →
  Forall (λ v, - (rows * cols) ≤ v < rows * cols) ordering →
  ∃ parts out,
    split_image_with_tile image (tw, th) = Ok parts
    ∧ Z.of_nat (length parts) = rows * cols
    ∧ join_parts parts ordering (Fint rows) (Fint cols) (mode image) = Ok out
    ∧ mode out = mode image
    ∧ width out = width image
    ∧ height out = height image
    ∧ ∀ (k : nat) (v dx dy : Z),
        ordering !! k = Some v → 0 ≤ dx < tw → 0 ≤ dy < th →
        let w := if v <? 0 then v + rows * cols else v in
        let x := Z.of_nat k mod cols * tw + dx in
        let y := Z.of_nat k / cols * th + dy in
        parts !! Z.to_nat w = Some (tile image tw th (w mod cols) (w / cols))
        ∧ 0 ≤ x < width image ∧ 0 ≤ y < height image
        ∧ getpixel out x y
          = getpixel image (w mod cols * tw + dx) (w / cols * th + dy).
Proof using Hwf Htw Hth HdivW HdivH.
  intros Hlen Hrange.
  pose proof (grid_bounds image tw th Hwf Htw Hth HdivW HdivH)
    as (Hc & Hr & Hcw & Hrh & Hn & HW & HH).
  destruct (join_split_spec image tw th Hwf Htw Hth HdivW HdivH ordering)
    as (parts & out & Hsplit & Hlenp & Hlookup & Hjoin & Hmode & Hwidth & Hheight
        & _ & Hcells); [lia|done|].
  exists parts, out.
  split; [done|]. split; [lia|]. split; [done|].
  split; [done|]. split; [done|]. split; [done|].
  intros k v dx dy Hk Hdx Hdy w x y.
  pose proof (proj1 (Forall_lookup _ _) Hrange k v Hk) as Hv. cbn beta in Hv.
  pose proof (lookup_lt_Some _ _ _ Hk) as Hlt.
  assert (0 ≤ w < rows * cols) as Hw
    by (unfold w; destruct (Z.ltb_spec v 0); lia).
  pose proof (Z.mod_pos_bound (Z.of_nat k) cols Hc) as Hkm.
  pose proof (Z.div_mod (Z.of_nat k) cols ltac:(lia)) as Hkd.
  assert (0 ≤ Z.of_nat k / cols) by (apply Z.div_pos; lia).
  assert (Z.of_nat k / cols < rows) by (apply Z.div_lt_upper_bound; lia).
  pose proof (Z.mod_pos_bound w cols Hc) as Hwm.
  pose proof (Z.div_mod w cols ltac:(lia)) as Hwd.
  assert (0 ≤ w / cols) by (apply Z.div_pos; lia).
  assert (w / cols < rows) by (apply Z.div_lt_upper_bound; lia).
  split; [by apply Hlookup|].
  split; [unfold x; nia|]. split; [unfold y; nia|].
  rewrite (Hcells k v (tile image tw th (w mod cols) (w / cols)) x y).
  - replace (x - Z.of_nat k mod cols * tw) with dx by (unfold x; lia).
    replace (y - Z.of_nat k / cols * th) with dy by (unfold y; lia).
    replace dx with (w mod cols * tw + dx - w mod cols * tw) at 1 by lia.
    replace dy with (w / cols * th + dy - w / cols * th) at 1 by lia.
    apply tile_getpixel; nia.
  - done.
  - apply py_getitem_wrap; [lia|].
    rewrite Hlenp, Z2Nat.id by nia. by apply Hlookup.
  - unfold in_cell, x, y. lia.
Qed.

End rearranged_cells.

(** X8. Python's indexing of the tile list: on a divisible image, for an
    ordering no longer than the tile sequence whose values lie in
    [-total, total), the joiner succeeds and the cell of position [k]
    holds tile [ordering[k]] for a non-negative value and tile
    [total + ordering[k]] for a negative one. *)
Theorem join_parts_wraps_negative (image : Image) (tw th : Z) (ordering : list Z) :
  wf_image image → 0 < tw → 0 < th →
  width image mod tw = 0 → height image mod th = 0 →
  Z.of_nat (length ordering) ≤ height image / th * (width image / tw) →
  Forall (λ v, - (height image / th * (width image / tw)) ≤ v
               < height image / th * (width image / tw)) ordering →
  ∃ parts out,
    split_image_with_tile image (tw, th) = Ok parts
    ∧ join_parts parts ordering (Fint (height image / th)) (Fint (width image / tw))
        (mode image) = Ok out
    ∧ ∀ (k : nat) (v : Z), ordering !! k = Some v →
        ∃ part,
          parts !! Z.to_nat (if v <? 0 then v + Z.of_nat (length parts) else v)
          = Some part
          ∧ ∀ dx dy, 0 ≤ dx < tw → 0 ≤ dy < th →
              getpixel out (Z.of_nat k mod (width image / tw) * tw + dx)
                           (Z.of_nat k / (width image / tw) * th + dy)
              = getpixel part dx dy.
Proof.
  intros Hwf Htw Hth HdivW HdivH Hlen Hrange.
  pose proof (grid_bounds image tw th Hwf Htw Hth HdivW HdivH)
    as (Hc & Hr & Hcw & Hrh & Hn & HW & HH).
  destruct (join_split_cells image tw th Hwf Htw Hth HdivW HdivH ordering Hlen Hrange)
    as (parts & out & Hsplit & Hlenp & Hjoin & _ & _ & _ & Hcells).
  exists parts, out. repeat split; try done.
  intros k v Hk. rewrite Hlenp.
  set (w := if v <? 0 then _ else v).
  exists (tile image tw th (w mod (width image / tw)) (w / (width image / tw))).
  split; [by apply (Hcells k v 0 0 Hk)|].
  intros dx dy Hdx Hdy.
  destruct (Hcells k v dx dy Hk Hdx Hdy) as (_ & Hx & Hy & ->).
  fold w.
  pose proof (proj1 (Forall_lookup _ _) Hrange k v Hk) as Hv. cbn beta in Hv.
  assert (0 ≤ w < height image / th * (width image / tw)) as Hw
    by (unfold w; destruct (Z.ltb_spec v 0); lia).
  pose proof (Z.mod_pos_bound w _ Hc) as Hwm.
  pose proof (Z.div_mod w (width image / tw) ltac:(lia)) as Hwd.
  assert (0 ≤ w / (width image / tw)) by (apply Z.div_pos; lia).
  assert (w / (width image / tw) < height image / th)
    by (apply Z.div_lt_upper_bound; lia).
  symmetry.
  replace dx with (w mod (width image / tw) * tw + dx - w mod (width image / tw) * tw)
    at 1 by lia.
  replace dy with (w / (width image / tw) * th + dy - w / (width image / tw) * th)
    at 1 by lia.
  apply tile_getpixel; nia.
Qed.

Lemma join_parts_wraps_negative_witness :
  ∃ parts out,
    split_image_with_tile sample (2, 2) = Ok parts
    ∧ join_parts parts [-1; 0; -3] (Fint (height sample / 2)) (Fint (width sample / 2))
        (mode sample) = Ok out
    ∧ ∀ (k : nat) (v : Z), [-1; 0; -3] !! k = Some v →
        ∃ part,
          parts !! Z.to_nat (if v <? 0 then v + Z.of_nat (length parts) else v)
          = Some part
          ∧ ∀ dx dy, 0 ≤ dx < 2 → 0 ≤ dy < 2 →
              getpixel out (Z.of_nat k mod (width sample / 2) * 2 + dx)
                           (Z.of_nat k / (width sample / 2) * 2 + dy)
              = getpixel part dx dy.
Proof.
  apply (join_parts_wraps_negative sample 2 2 [-1; 0; -3]).
  - unfold wf_image. vm_compute. repeat split; discriminate.
  - lia.
  - lia.
  - reflexivity.
  - reflexivity.
  - vm_compute. discriminate.
  - repeat constructor; vm_compute; discriminate.
Defined.

(** X9. Rearranging twice is rearranging once: splitting an image,
    joining by a full ordering [p], splitting the result and joining by an
    ordering [q] shows in the cell of position [k] the cell of the image
    that [p] names at position [q[k]]. *)
Theorem rearrange_twice (image : Image) (tw th : Z) (p q : list Z) :
  wf_image image → 0 < tw → 0 < th →
  width image mod tw = 0 → height image mod th = 0 →
  Z.of_nat (length p) = height image / th * (width image / tw) →
  Z.of_nat (length q) ≤ height image / th * (width image / tw) →
  Forall (λ v, 0 ≤ v < height image / th * (width image / tw)) p →
  Forall (λ v, 0 ≤ v < height image / th * (width image / tw)) q →
  ∃ parts1 out1 parts2 out2,
    split_image_with_tile image (tw, th) = Ok parts1
    ∧ join_parts parts1 p (Fint (height image / th)) (Fint (width image / tw))
        (mode image) = Ok out1
    ∧ split_image_with_tile out1 (tw, th) = Ok parts2
    ∧ join_parts parts2 q (Fint (height out1 / th)) (Fint (width out1 / tw))
        (mode out1) = Ok out2
    ∧ ∀ (k : nat) (v w dx dy : Z),
        q !! k = Some v → p !! Z.to_nat v = Some w →
        0 ≤ dx < tw → 0 ≤ dy < th →
        getpixel out2 (Z.of_nat k mod (width image / tw) * tw + dx)
                      (Z.of_nat k / (width image / tw) * th + dy)
        = getpixel image (w mod (width image / tw) * tw + dx)
                         (w / (width image / tw) * th + dy).
Proof.
  intros Hwf Htw Hth HdivW HdivH Hlenp Hlenq Hp Hq.
  destruct (join_split_cells image tw th Hwf Htw Hth HdivW HdivH p)
    as (parts1 & out1 & Hsplit1 & _ & Hjoin1 & Hmode1 & Hwidth1 & Hheight1 & Hcells1).
  { lia. }
  { eapply Forall_impl; [exact Hp|]. intros v Hv. cbn beta in Hv. lia. }
  assert (wf_image out1) as Hwf1 by (unfold wf_image; rewrite Hwidth1, Hheight1; exact Hwf).
  destruct (join_split_cells out1 tw th Hwf1 Htw Hth) with (ordering := q)
    as (parts2 & out2 & Hsplit2 & _ & Hjoin2 & _ & _ & _ & Hcells2).
  { by rewrite Hwidth1. }
  { by rewrite Hheight1. }
  { rewrite Hwidth1, Hheight1. lia. }
  { rewrite Hwidth1, Hheight1.
    eapply Forall_impl; [exact Hq|]. intros v Hv. cbn beta in Hv. lia. }
  exists parts1, out1, parts2, out2. repeat split; try done.
  intros k v w dx dy Hk Hv Hdx Hdy.
  pose proof (proj1 (Forall_lookup _ _) Hq k v Hk) as Hvr. cbn beta in Hvr.
  pose proof (proj1 (Forall_lookup _ _) Hp _ w Hv) as Hwr. cbn beta in Hwr.
  destruct (Hcells2 k v dx dy Hk Hdx Hdy) as (_ & _ & _ & Hpix2).
  rewrite Hwidth1, Hheight1 in Hpix2.
  destruct (Z.ltb_spec v 0) as [|_]; [lia|]. rewrite Hpix2.
  destruct (Hcells1 (Z.to_nat v) w dx dy Hv Hdx Hdy) as (_ & _ & _ & Hpix1).
  rewrite Z2Nat.id in Hpix1 by lia.
  destruct (Z.ltb_spec w 0) as [|_]; [lia|]. exact Hpix1.
Qed.

Lemma rearrange_twice_witness :
  ∃ parts1 out1 parts2 out2,
    split_image_with_tile sample (2, 2) = Ok parts1
    ∧ join_parts parts1 [1; 2; 3; 0] (Fint (height sample / 2)) (Fint (width sample / 2))
        (mode sample) = Ok out1
    ∧ split_image_with_tile out1 (2, 2) = Ok parts2
    ∧ join_parts parts2 [2; 0] (Fint (height out1 / 2)) (Fint (width out1 / 2))
        (mode out1) = Ok out2
    ∧ ∀ (k : nat) (v w dx dy : Z),
        [2; 0] !! k = Some v → [1; 2; 3; 0] !! Z.to_nat v = Some w →
        0 ≤ dx < 2 → 0 ≤ dy < 2 →
        getpixel out2 (Z.of_nat k mod (width sample / 2) * 2 + dx)
                      (Z.of_nat k / (width sample / 2) * 2 + dy)
        = getpixel sample (w mod (width sample / 2) * 2 + dx)
                          (w / (width sample / 2) * 2 + dy).
Proof.
  apply (rearrange_twice sample 2 2 [1; 2; 3; 0] [2; 0]).
  - unfold wf_image. vm_compute. repeat split; discriminate.
  - lia.
  - lia.
  - reflexivity.
  - reflexivity.
  - reflexivity.
  - vm_compute. discriminate.
  - repeat constructor; vm_compute; discriminate.
  - repeat constructor; vm_compute; discriminate.
Defined.

(** * Further properties of the orchestrator *)





Lemma rearrange_tiles_invalid_witness :
  rearrange_tiles {[ "in.png" := sample ]} "in.png" (3, 2) [0; 1] "out.png"
  = (Err (ValueError "The tile size or ordering are not valid for the given image"),
     {[ "in.png" := sample ]}).
Proof.
  apply (rearrange_tiles_invalid {[ "in.png" := sample ]} "in.png" "out.png"
           sample 3 2 [0; 1]).
  - reflexivity.
  - unfold wf_image. vm_compute. repeat split; discriminate.
  - lia.
  - lia.
  - vm_compute. reflexivity.
Defined.

(** X13. A negative tile width or height passes the validator whenever
    it divides, but the splitter then yields no tile: on an accepted input
    with a negative tile dimension the orchestrator raises [IndexError]
    and writes nothing. *)
Theorem rearrange_tiles_negative_tile (fs : gmap string Image)
    (image_path out_path : string) (image : Image) (tw th : Z) (ordering : list Z) :
  fs !! image_path = Some image →
  0 ≤ width image → 0 ≤ height image →
  tw < 0 ∨ th < 0 →
  valid_input (width image, height image) (tw, th) ordering = Ok true →
  rearrange_tiles fs image_path (tw, th) ordering out_path = (Err IndexError, fs).
Proof.
  intros Hfs HW HH Hneg Hvalid.
  pose proof (valid_input_true_inv _ _ _ _ _ Hvalid) as (Hnd & _ & Htw & Hth & HdW & HdH).
  pose proof Hvalid as Hdiv.
  rewrite valid_input_NoDup in Hdiv by done. cbn [fst snd] in Hdiv.
  unfold int_mod in Hdiv.
  destruct (Z.eqb_spec tw 0) as [|_]; [done|].
  destruct (Z.eqb_spec th 0) as [|_]; [done|].
  rewrite !bind_Ok, HdW, HdH in Hdiv. cbn [negb Z.eqb] in Hdiv.
  unfold rearrange_tiles, Image_open. rewrite Hfs. run. cbn [fst snd].
  destruct (true_div (width image) tw) as [cols|]; [|done]. rewrite bind_Ok in Hdiv.
  destruct (true_div (height image) th) as [rows|]; [|done]. run.
  rewrite Hvalid. run. cbn [negb].
  rewrite split_image_with_tile_negative by done. run.
  unfold join_parts. by rewrite py_getitem_nil.
Qed.

Lemma rearrange_tiles_negative_tile_witness :
  rearrange_tiles {[ "in.png" := sample ]} "in.png" (-2, 2) [0; 1] "out.png"
  = (Err IndexError, {[ "in.png" := sample ]}).
Proof.
  apply (rearrange_tiles_negative_tile {[ "in.png" := sample ]} "in.png" "out.png"
           sample (-2) 2 [0; 1]).
  - reflexivity.
  - vm_compute. discriminate.
  - vm_compute. discriminate.
  - left. lia.
  - vm_compute. reflexivity.
Defined.

(** The validator accepts an ordering without repeated values that has
    one value per tile. *)
Lemma valid_input_full_ordering (image : Image) (tw th : Z) (ordering : list Z) :
  wf_image image → 0 < tw → 0 < th →
  width image mod tw = 0 → height image mod th = 0 →
  NoDup ordering →
  Z.of_nat (length ordering) = height image / th * (width image / tw) →
  valid_input (width image, height image) (tw, th) ordering = Ok true.
Proof.
  intros Hwf Htw Hth HdivW HdivH Hnd Hlen.
  pose proof (grid_bounds image tw th Hwf Htw Hth HdivW HdivH)
    as (Hc & Hr & Hcw & Hrh & Hn & HW & HH).
  rewrite valid_input_exact; try done; try lia.
  - f_equal. apply bool_decide_eq_true_2. repeat split; try done.
    rewrite Hlen, (Z.mul_comm (width image / tw)). apply Z.mod_same. nia.
  - destruct ordering; [cbn in Hlen; nia|done].
  - unfold float_exact. nia.
  - unfold float_exact. nia.
  - unfold float_exact. nia.
  - unfold float_exact. nia.
Qed.

(** X14. Unscrambling, in memory.  Let [p] and [q] be orderings over
    all tiles that undo each other ([q[p[i]] = i] and [p[q[i]] = i]).
    The validator accepts [p] on the image and [q] on the image rearranged
    by [p]; splitting the image, joining by [p], splitting the result and
    joining by [q] succeeds and gives the image again: same mode, same
    size, same pixels. *)
Theorem split_join_round_trip (image : Image) (tw th : Z) (p q : list Z) :
  wf_image image → 0 < tw → 0 < th →
  width image mod tw = 0 → height image mod th = 0 →
  Z.of_nat (length p) = height image / th * (width image / tw) →
  Z.of_nat (length q) = height image / th * (width image / tw) →
  (∀ (i : nat) (v : Z), p !! i = Some v → 0 ≤ v ∧ q !! Z.to_nat v = Some (Z.of_nat i)) →
  (∀ (i : nat) (v : Z), q !! i = Some v → 0 ≤ v ∧ p !! Z.to_nat v = Some (Z.of_nat i)) →
  ∃ parts1 cols1 rows1 scrambled parts2 cols2 rows2 restored,
    valid_input (width image, height image) (tw, th) p = Ok true
    ∧ split_image_with_tile image (tw, th) = Ok parts1
    ∧ true_div (width image) tw = Ok cols1
    ∧ true_div (height image) th = Ok rows1
    ∧ join_parts parts1 p rows1 cols1 (mode image) = Ok scrambled
    ∧ valid_input (width scrambled, height scrambled) (tw, th) q = Ok true
    ∧ split_image_with_tile scrambled (tw, th) = Ok parts2
    ∧ true_div (width scrambled) tw = Ok cols2
    ∧ true_div (height scrambled) th = Ok rows2
    ∧ join_parts parts2 q rows2 cols2 (mode scrambled) = Ok restored
    ∧ mode restored = mode image
    ∧ width restored = width image
    ∧ height restored = height image
    ∧ ∀ x y, 0 ≤ x < width image → 0 ≤ y < height image →
        getpixel restored x y = getpixel image x y.
Proof.
  intros Hwf Htw Hth HdivW HdivH Hlenp Hlenq Hpq Hqp.
  pose proof (grid_bounds image tw th Hwf Htw Hth HdivW HdivH)
    as (Hc & Hr & Hcw & Hrh & Hn & HW & HH).
  set (cols := width image / tw) in *. set (rows := height image / th) in *.
  assert (∀ (l l' : list Z),
            Z.of_nat (length l') = rows * cols →
            (∀ (i : nat) (v : Z), l !! i = Some v →
               0 ≤ v ∧ l' !! Z.to_nat v = Some (Z.of_nat i)) →
            NoDup l ∧ Forall (λ v, 0 ≤ v < rows * cols) l) as Hperm.
  { intros l l' Hlen' Hinv. split.
    - apply NoDup_alt. intros i j v Hi Hj.
      destruct (Hinv i v Hi) as [_ Hi']. destruct (Hinv j v Hj) as [_ Hj'].
      rewrite Hi' in Hj'. injection Hj' as Hij. lia.
    - apply Forall_lookup. intros i v Hi. destruct (Hinv i v Hi) as [Hv Hi'].
      apply lookup_lt_Some in Hi'. lia. }
  destruct (Hperm p q Hlenq Hpq) as [Hndp Hrp].
  destruct (Hperm q p Hlenp Hqp) as [Hndq Hrq].
  destruct (derived_grid image tw th Hwf Htw Hth HdivW HdivH) as [Hcols Hrows].
  destruct (join_split_cells image tw th Hwf Htw Hth HdivW HdivH p)
    as (parts1 & out1 & Hsplit1 & _ & Hjoin1 & Hmode1 & Hwidth1 & Hheight1 & Hcells1).
  { fold rows cols. lia. }
  { eapply Forall_impl; [exact Hrp|]. intros v Hv. cbn beta in Hv. fold rows cols. lia. }
  assert (wf_image out1) as Hwf1
    by (unfold wf_image; rewrite Hwidth1, Hheight1; exact Hwf).
  assert (width out1 mod tw = 0) as HdivW1 by (by rewrite Hwidth1).
  assert (height out1 mod th = 0) as HdivH1 by (by rewrite Hheight1).
  destruct (derived_grid out1 tw th Hwf1 Htw Hth HdivW1 HdivH1) as [Hcols1 Hrows1].
  destruct (join_split_cells out1 tw th Hwf1 Htw Hth HdivW1 HdivH1 q)
    as (parts2 & out2 & Hsplit2 & _ & Hjoin2 & Hmode2 & Hwidth2 & Hheight2 & Hcells2).
  { rewrite Hwidth1, Hheight1. fold rows cols. lia. }
  { rewrite Hwidth1, Hheight1.
    eapply Forall_impl; [exact Hrq|]. intros v Hv. cbn beta in Hv. fold rows cols. lia. }
  exists parts1, (Fint cols), (Fint rows), out1,
    parts2, (Fint (width out1 / tw)), (Fint (height out1 / th)), out2.
  split; [by apply valid_input_full_ordering|].
  split; [done|]. split; [done|]. split; [done|]. split; [done|].
  split.
  { apply valid_input_full_ordering; try done. by rewrite Hwidth1, Hheight1. }
  split; [done|]. split; [done|]. split; [done|]. split; [done|].
  split; [congruence|]. split; [congruence|]. split; [congruence|].
  intros x y Hx Hy.
  rewrite Hwidth1, Hheight1 in Hcells2. fold rows cols in Hcells1, Hcells2.
  destruct (pixel_cell cols tw th x y Hc Htw Hth ltac:(lia) ltac:(lia))
    as (Hidx & Hm & Hd & [Hcx Hcy]).
  set (idx := y / th * cols + x / tw) in *.
  assert (y / th < rows) by (apply Z.div_lt_upper_bound; lia).
  assert (0 ≤ x / tw < cols)
    by (split; [apply Z.div_pos|apply Z.div_lt_upper_bound]; lia).
  assert (idx < rows * cols) by (unfold idx; nia).
  destruct (lookup_lt_is_Some_2 q (Z.to_nat idx) ltac:(lia)) as [v Hv].
  destruct (Hqp _ v Hv) as [Hv0 Hpv]. rewrite Z2Nat.id in Hpv by lia.
  destruct (Hcells2 (Z.to_nat idx) v (x - idx mod cols * tw) (y - idx / cols * th) Hv
              ltac:(lia) ltac:(lia)) as (_ & _ & _ & Hpix2).
  rewrite Z2Nat.id in Hpix2 by lia.
  replace (idx mod cols * tw + (x - idx mod cols * tw)) with x in Hpix2 by lia.
  replace (idx / cols * th + (y - idx / cols * th)) with y in Hpix2 by lia.
  rewrite Hpix2. destruct (Z.ltb_spec v 0) as [|_]; [lia|].
  destruct (Hcells1 (Z.to_nat v) idx (x - idx mod cols * tw) (y - idx / cols * th) Hpv
              ltac:(lia) ltac:(lia)) as (_ & _ & _ & Hpix1).
  rewrite Z2Nat.id in Hpix1 by lia. rewrite Hpix1.
  destruct (Z.ltb_spec idx 0) as [|_]; [lia|]. f_equal; lia.
Qed.

Lemma split_join_round_trip_witness :
  ∃ parts1 cols1 rows1 scrambled parts2 cols2 rows2 restored,
    valid_input (width sample, height sample) (2, 2) [1; 2; 3; 0] = Ok true
    ∧ split_image_with_tile sample (2, 2) = Ok parts1
    ∧ true_div (width sample) 2 = Ok cols1
    ∧ true_div (height sample) 2 = Ok rows1
    ∧ join_parts parts1 [1; 2; 3; 0] rows1 cols1 (mode sample) = Ok scrambled
    ∧ valid_input (width scrambled, height scrambled) (2, 2) [3; 0; 1; 2] = Ok true
    ∧ split_image_with_tile scrambled (2, 2) = Ok parts2
    ∧ true_div (width scrambled) 2 = Ok cols2
    ∧ true_div (height scrambled) 2 = Ok rows2
    ∧ join_parts parts2 [3; 0; 1; 2] rows2 cols2 (mode scrambled) = Ok restored
    ∧ mode restored = mode sample
    ∧ width restored = width sample
    ∧ height restored = height sample
    ∧ ∀ x y, 0 ≤ x < width sample → 0 ≤ y < height sample →
        getpixel restored x y = getpixel sample x y.
Proof.
  apply (split_join_round_trip sample 2 2 [1; 2; 3; 0] [3; 0; 1; 2]).
  - unfold wf_image. vm_compute. repeat split; discriminate.
  - lia.
  - lia.
  - reflexivity.
  - reflexivity.
  - reflexivity.
  - reflexivity.
  - intros [|[|[|[|i]]]] v Hv; vm_compute in Hv; try discriminate Hv;
      injection Hv as <-; split; (lia || reflexivity).
  - intros [|[|[|[|i]]]] v Hv; vm_compute in Hv; try discriminate Hv;
      injection Hv as <-; split; (lia || reflexivity).
Defined.
